(** * ust-id-checker: the VAT-id request handler, embedded and verified

    The repository holds two versions of one serverless handler:
    - the handler with the sliding-window rate limiter (module [Limited]),
    - the earlier handler without it, [src/api/check-vat.js] (module [Basic]).

    Both are embedded below as pure functions.  The effects of the JavaScript
    code are made explicit: the process-wide [rateLimiter] map is threaded as
    a state, the clock and the random draw are read from an environment
    record, and the outbound [fetch] is a continuation of the outcome. *)

From Stdlib Require Import ZArith NArith List Bool Ascii String Lia DecimalString.
From stdpp Require Import base decidable option list countable gmap fin_maps.

Local Open Scope Z_scope.

(** ** JavaScript strings

    A JavaScript string is a sequence of UTF-16 code units. *)

Abbreviation jsstring := (list N).

(** An ASCII literal of the source, as code units. *)
Definition u (s : string) : jsstring :=
  map N_of_ascii (list_ascii_of_string s).

(** [String.prototype.substring(a)] and [substring(0, b)], on code units. *)
Definition substring_from (a : nat) (s : jsstring) : jsstring := drop a s.
Definition substring_to (b : nat) (s : jsstring) : jsstring := take b s.

(** The class [\s] of ECMAScript: WhiteSpace and LineTerminator. *)
Definition isWhitespace (c : N) : bool :=
  ((9 <=? c) && (c <=? 13) || (c =? 32) || (c =? 160) || (c =? 5760)
   || (8192 <=? c) && (c <=? 8202) || (c =? 8232) || (c =? 8233)
   || (c =? 8239) || (c =? 8287) || (c =? 12288) || (c =? 65279))%N.

(** [s.replace(/\s/g, '')] *)
Definition stripWhitespace (s : jsstring) : jsstring :=
  List.filter (fun c => negb (isWhitespace c)) s.

(** [String.prototype.toUpperCase] restricted to what is independent of the
    Unicode tables of the engine: the letters a-z.  The handlers below take
    the built-in as a parameter; this instance is used to run them. *)
Definition asciiUpper (c : N) : N :=
  if ((97 <=? c) && (c <=? 122))%N then (c - 32)%N else c.
Definition asciiToUpperCase (s : jsstring) : jsstring := map asciiUpper s.

(** ** JavaScript values that cross the handler *)

Inductive jsval :=
| JUndefined
| JNull
| JBool (b : bool)
| JNum (z : Z)                               (* an integer number *)
| JStr (s : jsstring)
| JOpaque (truthy : bool) (repr : jsstring). (* any other number, an array or
                                                an object: its truthiness and
                                                the result of toString() *)

(** ToBoolean *)
Definition truthy (v : jsval) : bool :=
  match v with
  | JUndefined | JNull => false
  | JBool b => b
  | JNum z => negb (z =? 0)
  | JStr s => match s with [] => false | _ => true end
  | JOpaque t _ => t
  end.

(** [v.toString()] for a value on which the call does not throw; integers
    print in decimal. *)
Definition toString (v : jsval) : jsstring :=
  match v with
  | JUndefined => u "undefined"
  | JNull => u "null"
  | JBool true => u "true"
  | JBool false => u "false"
  | JNum z => u (NilZero.string_of_int (Z.to_int z))
  | JStr s => s
  | JOpaque _ r => r
  end.

(** [a || b] *)
Definition js_or (a b : jsval) : jsval := if truthy a then a else b.

(** ** Regular expressions of the rule tables

    The patterns of the source use anchors, literal characters, character
    classes with a counted repetition, sequence and alternation. *)

Definition cclass := list (N * N).           (* inclusive code-unit ranges *)

Definition in_class (cl : cclass) (c : N) : bool :=
  existsb (fun r => (fst r <=? c) && (c <=? snd r))%N cl.

Definition rng (a b : string) : N * N :=
  (hd 0%N (u a), hd 0%N (u b)).
Definition chr (a : string) : N * N := rng a a.

Inductive regex :=
| Bol                                         (* ^ *)
| Eol                                         (* $ *)
| Lit (s : jsstring)                          (* literal characters *)
| Rep (cl : cclass) (lo hi : nat)             (* [class]{lo,hi} *)
| Seq (a b : regex)
| Alt (a b : regex).

Declare Scope regex_scope.
Delimit Scope regex_scope with re.
Bind Scope regex_scope with regex.
Infix "⋅" := Seq (at level 40, left associativity) : regex_scope.
Infix "∣" := Alt (at level 50, left associativity) : regex_scope.

(** [\d], [\d{n}], [\d{m,n}] and single occurrences of a class *)
Definition digit : cclass := [rng "0" "9"].
Definition D (n : nat) : regex := Rep digit n n.
Definition Dr (lo hi : nat) : regex := Rep digit lo hi.
Definition One (cl : cclass) : regex := Rep cl 1 1.

(** A matcher position: the index in the input and the rest of the input. *)
Definition mstate := (nat * jsstring)%type.

(** Length of the longest prefix made of characters of the class. *)
Fixpoint run_length (cl : cclass) (s : jsstring) : nat :=
  match s with
  | c :: s' => if in_class cl c then S (run_length cl s') else O
  | [] => O
  end.

Fixpoint is_prefix (p s : jsstring) : bool :=
  match p, s with
  | [], _ => true
  | a :: p', b :: s' => (a =? b)%N && is_prefix p' s'
  | _ :: _, [] => false
  end.

(** All positions reachable by matching [r] from a position: the matcher
    explores every alternative, as the backtracking of the engine does. *)
Fixpoint rmatch (r : regex) (st : mstate) : list mstate :=
  match r with
  | Bol => match fst st with O => [st] | _ => [] end
  | Eol => match snd st with [] => [st] | _ => [] end
  | Lit l =>
      if is_prefix l (snd st)
      then [((fst st + length l)%nat, drop (length l) (snd st))] else []
  | Rep cl lo hi =>
      let n := Nat.min hi (run_length cl (snd st)) in
      map (fun k => ((fst st + k)%nat, drop k (snd st)))
          (List.filter (fun k => (lo <=? k)%nat) (seq 0 (S n)))
  | Seq a b => flat_map (rmatch b) (rmatch a st)
  | Alt a b => rmatch a st ++ rmatch b st
  end.

(** [RegExp.prototype.test] without flags: a match may start anywhere. *)
Definition test (r : regex) (s : jsstring) : bool :=
  existsb (fun i => match rmatch r (i, drop i s) with [] => false | _ => true end)
          (seq 0 (S (length s))).

(** An object literal with string keys, in source order, and property
    lookup.  The keys looked up here have at most two code units, so no
    property inherited from [Object.prototype] can be found instead. *)
Definition table := list (jsstring * regex).

Fixpoint lookup_key (k : jsstring) (t : table) : option regex :=
  match t with
  | [] => None
  | (k', r) :: t' => if decide (k = k') then Some r else lookup_key k t'
  end.

Definition L (s : string) : regex := Lit (u s).

(** [cleanVatId.substring(0, 2)] and [cleanVatId.substring(2)] *)
Definition countryCode (cleanVatId : jsstring) : jsstring :=
  substring_to 2 cleanVatId.
Definition vatNumber (cleanVatId : jsstring) : jsstring :=
  substring_from 2 cleanVatId.

(** The three ways the format check of a handler ends. *)
Inductive format_result := UnknownCountry | BadFormat | FormatOk.

(** [if (!vatFormats[countryCode]) ... if (!vatFormats[countryCode].test(cleanVatId)) ...] *)
Definition checkFormat (vatFormats : table) (cleanVatId : jsstring) : format_result :=
  match lookup_key (countryCode cleanVatId) vatFormats with
  | None => UnknownCountry
  | Some r => if test r cleanVatId then FormatOk else BadFormat
  end.

(** ** Requests, responses and the environment *)

Record request := {
  method : jsstring;                    (* req.method *)
  x_forwarded_for : option jsstring;    (* req.headers['x-forwarded-for'] *)
  x_real_ip : option jsstring;          (* req.headers['x-real-ip'] *)
  remoteAddress : option jsstring;      (* req.connection?.remoteAddress *)
  query_vatId : jsval;                  (* req.query.vatId *)
  body_vatId : jsval                    (* req.body?.vatId *)
}.

Record response := {
  status : Z;
  headers : list (string * string);
  body : option (list (string * jsval)) (* None: ended without a body *)
}.

(** What a handler reads from outside during one call. *)
Record env := {
  now : Z;                     (* Date.now(), milliseconds *)
  sweep_draw : bool;           (* the outcome of Math.random() < 0.02 *)
  iso_requestDate : jsstring;  (* new Date().toISOString(), first reading *)
  iso_timestamp : jsstring     (* new Date().toISOString(), at the response *)
}.

(** What the outbound call and the parse of its body can give. *)
Inductive vies_body :=
| BodyMalformed                                      (* response.json() throws *)
| BodyNull                                           (* the body is null *)
| BodyData (valid name address requestDate : jsval). (* the four properties read *)

Inductive fetch_result :=
| FetchRejected                                      (* network error, timeout *)
| FetchResponse (ok : bool) (b : vies_body).

(** A handler either responds at once or calls the registry and responds
    from what comes back. *)
Inductive outcome :=
| Respond (r : response)
| CallVies (url : jsstring) (k : fetch_result -> response).

Definition complete (o : outcome) (f : fetch_result) : response :=
  match o with
  | Respond r => r
  | CallVies _ k => k f
  end.

Definition corsHeaders : list (string * string) :=
  [("Access-Control-Allow-Origin", "*");
   ("Access-Control-Allow-Methods", "GET, POST, OPTIONS");
   ("Access-Control-Allow-Headers", "Content-Type")]%string.

(** [res.status(c).end()] and [res.status(c).json(o)] *)
Definition ended (c : Z) : response :=
  {| status := c; headers := corsHeaders; body := None |}.
Definition json (c : Z) (o : list (string * jsval)) : response :=
  {| status := c; headers := corsHeaders; body := Some o |}.

(** The value of a property of a response body, if the body has it. *)
Fixpoint prop (k : string) (o : list (string * jsval)) : option jsval :=
  match o with
  | [] => None
  | (k', v) :: o' => if String.eqb k k' then Some v else prop k o'
  end.
Definition field (k : string) (r : response) : option jsval :=
  match body r with Some o => prop k o | None => None end.

Definition methodNotAllowed : response :=
  json 405 [("error", JStr (u "Method not allowed"))]%string.

Definition unknownCountry (cleanVatId : jsstring) : response :=
  json 400
    [("vatId", JStr cleanVatId);
     ("valid", JBool false);
     ("error", JStr (u "Unbekanntes Land oder ung" ++ [252%N] ++ u "ltiges Format"));
     ("formatValid", JBool false)]%string.

Definition badFormat (cleanVatId : jsstring) : response :=
  json 400
    [("vatId", JStr cleanVatId);
     ("valid", JBool false);
     ("error", JStr (u "Format entspricht nicht den Regeln f" ++ [252%N] ++ u "r "
                     ++ countryCode cleanVatId));
     ("formatValid", JBool false)]%string.

(** The response of the [catch] block. *)
Definition indeterminate (cleanVatId : jsstring) (e : env) : response :=
  json 200
    [("vatId", JStr cleanVatId);
     ("valid", JNull);
     ("error", JStr (u "VIES API nicht erreichbar"));
     ("formatValid", JBool true);
     ("countryCode", JStr (countryCode cleanVatId));
     ("timestamp", JStr (iso_timestamp e));
     ("message", JStr (u "Format ist g" ++ [252%N] ++ u "ltig, aber Online-Pr"
                       ++ [252%N] ++ u "fung fehlgeschlagen"))]%string.

(** The response at the end of the [try] block. *)
Definition confirmed (cleanVatId : jsstring) (e : env)
    (valid name address requestDate : jsval) : response :=
  json 200
    [("vatId", JStr cleanVatId);
     ("valid", valid);
     ("name", js_or name (JStr []));
     ("address", js_or address (JStr []));
     ("countryCode", JStr (countryCode cleanVatId));
     ("requestDate", js_or requestDate (JStr (iso_requestDate e)));
     ("formatValid", JBool true);
     ("source", JStr (u "EU VIES"));
     ("timestamp", JStr (iso_timestamp e))]%string.

(** The [try]/[catch] around the outbound call: a rejected fetch, a response
    that is not ok, a body that does not parse and a property read on null
    all throw an Error inside [try] and end in the [catch] block. *)
Definition viesReply (cleanVatId : jsstring) (e : env) (f : fetch_result) : response :=
  match f with
  | FetchRejected => indeterminate cleanVatId e
  | FetchResponse false _ => indeterminate cleanVatId e
  | FetchResponse true BodyMalformed => indeterminate cleanVatId e
  | FetchResponse true BodyNull => indeterminate cleanVatId e
  | FetchResponse true (BodyData valid name address requestDate) =>
      confirmed cleanVatId e valid name address requestDate
  end.

Definition viesUrl (cleanVatId : jsstring) : jsstring :=
  u "https://ec.europa.eu/taxation_customs/vies/rest-api/ms/"
    ++ countryCode cleanVatId ++ u "/vat/" ++ vatNumber cleanVatId.

Definition GET : jsstring := u "GET".
Definition POST : jsstring := u "POST".
Definition OPTIONS : jsstring := u "OPTIONS".

(** [req.method === 'GET' ? req.query.vatId : req.body?.vatId] *)
Definition vatId (req : request) : jsval :=
  if decide (method req = GET) then query_vatId req else body_vatId req.

(** ** The earlier handler: [src/api/check-vat.js] *)

Module Basic.

Definition vatFormats : table :=
  [
    (u "AT", Bol ⋅ L "ATU" ⋅ D 8 ⋅ Eol);
    (u "BE", Bol ⋅ L "BE" ⋅ (L "0" ⋅ D 9 ∣ D 10) ⋅ Eol);
    (u "BG", Bol ⋅ L "BG" ⋅ Dr 9 10 ⋅ Eol);
    (u "CY", Bol ⋅ L "CY" ⋅ D 8 ⋅ One [rng "A" "Z"] ⋅ Eol);
    (u "CZ", Bol ⋅ L "CZ" ⋅ Dr 8 10 ⋅ Eol);
    (u "DE", Bol ⋅ L "DE" ⋅ D 9 ⋅ Eol);
    (u "DK", Bol ⋅ L "DK" ⋅ D 8 ⋅ Eol);
    (u "EE", Bol ⋅ L "EE" ⋅ D 9 ⋅ Eol);
    (u "GR", Bol ⋅ L "EL" ⋅ D 9 ⋅ Eol);
    (u "ES", Bol ⋅ L "ES" ⋅ One [rng "A" "Z"; rng "0" "9"] ⋅ D 7
                      ⋅ One [rng "A" "Z"; rng "0" "9"] ⋅ Eol);
    (u "FI", Bol ⋅ L "FI" ⋅ D 8 ⋅ Eol);
    (u "FR", Bol ⋅ L "FR" ⋅ Rep [rng "A" "H"; rng "J" "N"; rng "P" "Z"; rng "0" "9"] 2 2
                      ⋅ D 9 ⋅ Eol);
    (u "HR", Bol ⋅ L "HR" ⋅ D 11 ⋅ Eol);
    (u "HU", Bol ⋅ L "HU" ⋅ D 8 ⋅ Eol);
    (u "IE", Bol ⋅ L "IE" ⋅ (D 7 ⋅ One [rng "A" "W"]
                       ∣ D 1 ⋅ One [rng "A" "Z"; chr "*"; chr "+"] ⋅ D 5
                         ⋅ One [rng "A" "W"]) ⋅ Eol);
    (u "IT", Bol ⋅ L "IT" ⋅ D 11 ⋅ Eol);
    (u "LT", Bol ⋅ L "LT" ⋅ (D 9 ∣ D 12) ⋅ Eol);
    (u "LU", Bol ⋅ L "LU" ⋅ D 8 ⋅ Eol);
    (u "LV", Bol ⋅ L "LV" ⋅ D 11 ⋅ Eol);
    (u "MT", Bol ⋅ L "MT" ⋅ D 8 ⋅ Eol);
    (u "NL", Bol ⋅ L "NL" ⋅ D 9 ⋅ L "B" ⋅ D 2 ⋅ Eol);
    (u "PL", Bol ⋅ L "PL" ⋅ D 10 ⋅ Eol);
    (u "PT", Bol ⋅ L "PT" ⋅ D 9 ⋅ Eol);
    (u "RO", Bol ⋅ L "RO" ⋅ Dr 2 10 ⋅ Eol);
    (u "SE", Bol ⋅ L "SE" ⋅ D 12 ⋅ Eol);
    (u "SI", Bol ⋅ L "SI" ⋅ D 8 ⋅ Eol);
    (u "SK", Bol ⋅ L "SK" ⋅ D 10 ⋅ Eol) ]%re.

(** The 400 of a missing identifier: this version sends no [formatValid]. *)
Definition missingVatId : response :=
  json 400
    [("error", JStr (u "USt-ID ist erforderlich"));
     ("usage", JStr (u "GET /api/check-vat?vatId=DE123456789"))]%string.

Section Handler.

Variable toUpperCase : jsstring -> jsstring.

(** [vatId.toString().replace(/\s/g, '').toUpperCase()] *)
Definition cleanVatId (v : jsval) : jsstring :=
  toUpperCase (stripWhitespace (toString v)).

Definition handler (req : request) (e : env) : outcome :=
  if decide (method req = OPTIONS) then Respond (ended 200)
  else if decide (method req <> GET /\ method req <> POST)
  then Respond methodNotAllowed
  else if negb (truthy (vatId req)) then Respond missingVatId
  else
    let c := cleanVatId (vatId req) in
    match checkFormat vatFormats c with
    | UnknownCountry => Respond (unknownCountry c)
    | BadFormat => Respond (badFormat c)
    | FormatOk => CallVies (viesUrl c) (viesReply c e)
    end.

End Handler.

End Basic.

(** ** The handler with the rate limiter *)

Module Limited.

Definition vatFormats : table :=
  [
    (u "AT", Bol ⋅ L "ATU" ⋅ D 8 ⋅ Eol);
    (u "BE", Bol ⋅ L "BE" ⋅ (L "0" ⋅ D 9 ∣ D 10) ⋅ Eol);
    (u "BG", Bol ⋅ L "BG" ⋅ Dr 9 10 ⋅ Eol);
    (u "CY", Bol ⋅ L "CY" ⋅ D 8 ⋅ One [rng "A" "Z"] ⋅ Eol);
    (u "CZ", Bol ⋅ L "CZ" ⋅ Dr 8 10 ⋅ Eol);
    (u "DE", Bol ⋅ L "DE" ⋅ D 9 ⋅ Eol);
    (u "DK", Bol ⋅ L "DK" ⋅ D 8 ⋅ Eol);
    (u "EE", Bol ⋅ L "EE" ⋅ D 9 ⋅ Eol);
    (u "GR", Bol ⋅ L "EL" ⋅ D 9 ⋅ Eol);
    (u "EL", Bol ⋅ L "EL" ⋅ D 9 ⋅ Eol);
    (u "ES", Bol ⋅ L "ES" ⋅ One [rng "A" "Z"; rng "0" "9"] ⋅ D 7
                      ⋅ One [rng "A" "Z"; rng "0" "9"] ⋅ Eol);
    (u "FI", Bol ⋅ L "FI" ⋅ D 8 ⋅ Eol);
    (u "FR", Bol ⋅ L "FR" ⋅ Rep [rng "A" "H"; rng "J" "N"; rng "P" "Z"; rng "0" "9"] 2 2
                      ⋅ D 9 ⋅ Eol);
    (u "HR", Bol ⋅ L "HR" ⋅ D 11 ⋅ Eol);
    (u "HU", Bol ⋅ L "HU" ⋅ D 8 ⋅ Eol);
    (u "IE", Bol ⋅ L "IE" ⋅ (D 7 ⋅ One [rng "A" "W"]
                       ∣ D 1 ⋅ One [rng "A" "Z"; chr "*"; chr "+"] ⋅ D 5
                         ⋅ One [rng "A" "W"]) ⋅ Eol);
    (u "IT", Bol ⋅ L "IT" ⋅ D 11 ⋅ Eol);
    (u "LT", Bol ⋅ L "LT" ⋅ (D 9 ∣ D 12) ⋅ Eol);
    (u "LU", Bol ⋅ L "LU" ⋅ D 8 ⋅ Eol);
    (u "LV", Bol ⋅ L "LV" ⋅ D 11 ⋅ Eol);
    (u "MT", Bol ⋅ L "MT" ⋅ D 8 ⋅ Eol);
    (u "NL", Bol ⋅ L "NL" ⋅ D 9 ⋅ L "B" ⋅ D 2 ⋅ Eol);
    (u "PL", Bol ⋅ L "PL" ⋅ D 10 ⋅ Eol);
    (u "PT", Bol ⋅ L "PT" ⋅ D 9 ⋅ Eol);
    (u "RO", Bol ⋅ L "RO" ⋅ Dr 2 10 ⋅ Eol);
    (u "SE", Bol ⋅ L "SE" ⋅ D 12 ⋅ Eol);
    (u "SI", Bol ⋅ L "SI" ⋅ D 8 ⋅ Eol);
    (u "SK", Bol ⋅ L "SK" ⋅ D 10 ⋅ Eol);
    (u "XI", Bol ⋅ L "XI" ⋅ D 9 ⋅ Eol) ]%re.

(** The process-wide [rateLimiter]: a Map from the client identity to the
    times of its admitted requests. *)
Abbreviation store := (gmap jsstring (list Z)).

(** [time => now - time < 3600000]; the times are the integers of
    [Date.now()], on which the arithmetic of the source is exact. *)
Definition inWindow (now time : Z) : bool := now - time <? 3600000.

(** The limit of the comparison [requests.length >= 150]. *)
Definition limit : nat := 150.

(** [a || b] where [a] is a string or undefined and [b] a string *)
Definition str_or (a : option jsstring) (b : jsstring) : jsstring :=
  match a with
  | Some (c :: a') => c :: a'
  | _ => b
  end.

(** [h.split(',')[0]] *)
Fixpoint split_head (h : jsstring) : jsstring :=
  match h with
  | [] => []
  | c :: h' => if (c =? 44)%N then [] else c :: split_head h'
  end.

Definition clientIP (req : request) : jsstring :=
  str_or (split_head <$> x_forwarded_for req)
    (str_or (x_real_ip req)
       (str_or (remoteAddress req) (u "unknown"))).

Definition tooManyRequests : response :=
  json 429
    [("error", JStr (u "Zu viele Anfragen. Bitte versuchen Sie es sp" ++ [228%N]
                     ++ u "ter erneut."));
     ("formatValid", JBool false);
     ("retryAfter", JNum 3600)]%string.

Definition missingVatId : response :=
  json 400
    [("error", JStr (u "USt-ID ist erforderlich"));
     ("usage", JStr (u "GET /api/check-vat?vatId=DE123456789"));
     ("formatValid", JBool false)]%string.

(** The rate-limit block: [None] when the request is rejected, otherwise
    the store with the time of this request appended. *)
Definition rateLimit (ip : jsstring) (now : Z) (rateLimiter : store) : option store :=
  match rateLimiter !! ip with
  | Some times =>
      let requests := List.filter (inWindow now) times in
      if (limit <=? length requests)%nat then None
      else Some (<[ip := requests ++ [now]]> rateLimiter)
  | None => Some (<[ip := [now]]> rateLimiter)
  end.

(** The body of the cleanup loop for one entry. *)
Definition sweepEntry (now : Z) (ip : jsstring) (times : list Z) (rateLimiter : store) : store :=
  let recentRequests := List.filter (inWindow now) times in
  match recentRequests with
  | [] => delete ip rateLimiter
  | _ => <[ip := recentRequests]> rateLimiter
  end.

(** [for (const [ip, times] of rateLimiter.entries()) ...]: the loop visits
    the entries of the map and updates the map it iterates. *)
Definition sweep (now : Z) (rateLimiter : store) : store :=
  map_fold (sweepEntry now) rateLimiter rateLimiter.

Section Handler.

Variable toUpperCase : jsstring -> jsstring.

(** [vatId.toString().replace(/\s/g, '').toUpperCase()] *)
Definition cleanVatId (v : jsval) : jsstring :=
  toUpperCase (stripWhitespace (toString v)).

(** Everything after the rate limiter and the cleanup. *)
Definition validate (req : request) (e : env) : outcome :=
  if negb (truthy (vatId req)) then Respond missingVatId
  else
    let c := cleanVatId (vatId req) in
    match checkFormat vatFormats c with
    | UnknownCountry => Respond (unknownCountry c)
    | BadFormat => Respond (badFormat c)
    | FormatOk => CallVies (viesUrl c) (viesReply c e)
    end.

Definition handler (req : request) (e : env) (rateLimiter : store) : outcome * store :=
  if decide (method req = OPTIONS) then (Respond (ended 200), rateLimiter)
  else if decide (method req <> GET /\ method req <> POST)
  then (Respond methodNotAllowed, rateLimiter)
  else
    match rateLimit (clientIP req) (now e) rateLimiter with
    | None => (Respond tooManyRequests, rateLimiter)
    | Some admitted =>
        let swept := if sweep_draw e then sweep (now e) admitted else admitted in
        (validate req e, swept)
    end.

(** One served request: what the handler reads from outside, the outcome of
    the outbound call included (it is read only if the call is made).  The
    handler touches [rateLimiter] before its only [await], so on the single
    thread of the event loop the store passes from one call to the next in
    the order in which the calls start. *)
Record call := {
  call_req : request;
  call_env : env;
  call_fetch : fetch_result
}.

Definition serve (c : call) (rateLimiter : store) : response * store :=
  let '(o, rl) := handler (call_req c) (call_env c) rateLimiter in
  (complete o (call_fetch c), rl).

(** Requests served one after the other on the same process. *)
Fixpoint serveAll (cs : list call) (rateLimiter : store) : list response * store :=
  match cs with
  | [] => ([], rateLimiter)
  | c :: cs' =>
      let '(r, rl) := serve c rateLimiter in
      let '(rs, rl') := serveAll cs' rl in
      (r :: rs, rl')
  end.

End Handler.

End Limited.

(** ** Specification-side definitions *)

(** What a pattern describes, stated without the matcher: [lang r pre m post]
    says that [r] matches the characters [m] when [pre] stands before them
    and [post] after them in the input. *)
Inductive lang : regex -> jsstring -> jsstring -> jsstring -> Prop :=
| lang_bol post : lang Bol [] [] post
| lang_eol pre : lang Eol pre [] []
| lang_lit l pre post : lang (Lit l) pre l post
| lang_rep cl lo hi pre m post :
    (lo <= length m <= hi)%nat ->
    Forall (fun c => in_class cl c = true) m ->
    lang (Rep cl lo hi) pre m post
| lang_seq a b pre m1 m2 post :
    lang a pre m1 (m2 ++ post) ->
    lang b (pre ++ m1) m2 post ->
    lang (Seq a b) pre (m1 ++ m2) post
| lang_alt_l a b pre m post : lang a pre m post -> lang (Alt a b) pre m post
| lang_alt_r a b pre m post : lang b pre m post -> lang (Alt a b) pre m post.

(** The input has the shape the pattern describes. *)
Definition matches (r : regex) (s : jsstring) : Prop :=
  exists pre m post, s = pre ++ m ++ post /\ lang r pre m post.

(** The literal a pattern of the form [^lit...] starts with. *)
Fixpoint anchored_lit (r : regex) : option jsstring :=
  match r with
  | Seq Bol (Lit l) => Some l
  | Seq a _ => anchored_lit a
  | _ => None
  end.

(** The table has an entry for the prefix [cc] whose pattern starts, at the
    beginning of the input, with a literal that itself starts with [cc]. *)
Definition covered (t : table) (cc : jsstring) : bool :=
  match lookup_key cc t with
  | Some r =>
      match anchored_lit r with
      | Some l => bool_decide (take 2 l = cc) && (2 <=? length l)%nat
      | None => false
      end
  | None => false
  end.

(** The prefixes under which the registry lists the 27 member states
    (Greece as EL) and Northern Ireland. *)
Definition jurisdictions : list jsstring :=
  map u ["AT"; "BE"; "BG"; "CY"; "CZ"; "DE"; "DK"; "EE"; "EL"; "ES"; "FI";
         "FR"; "HR"; "HU"; "IE"; "IT"; "LT"; "LU"; "LV"; "MT"; "NL"; "PL";
         "PT"; "RO"; "SE"; "SI"; "SK"; "XI"]%string.

(** One identifier of the documented shape per prefix. *)
Definition samples : list jsstring :=
  map u ["ATU12345678"; "BE0123456789"; "BG123456789"; "CY12345678X";
         "CZ12345678"; "DE123456789"; "DK12345678"; "EE123456789";
         "EL123456789"; "ESX1234567X"; "FI12345678"; "FRXX123456789";
         "HR12345678901"; "HU12345678"; "IE1234567W"; "IT12345678901";
         "LT123456789012"; "LU12345678"; "LV12345678901"; "MT12345678";
         "NL123456789B01"; "PL1234567890"; "PT123456789"; "RO12";
         "SE123456789012"; "SI12345678"; "SK1234567890"; "XI123456789"]%string.

(** The outbound call or the parse of its body failed. *)
Definition upstreamFailed (f : fetch_result) : bool :=
  match f with
  | FetchResponse true (BodyData _ _ _ _) => false
  | _ => true
  end.

(** Each later time lies less than one window after each earlier one. *)
Fixpoint oneWindow (ts : list Z) : Prop :=
  match ts with
  | [] => True
  | t :: ts' => Forall (fun t' => t' - t < 3600000) ts' /\ oneWindow ts'
  end.

(** A GET or POST request of the identity [ip]: the requests that reach the
    rate limiter under that identity. *)
Definition callOf (ip : jsstring) (c : Limited.call) : Prop :=
  (method (Limited.call_req c) = GET \/ method (Limited.call_req c) = POST)
  /\ Limited.clientIP (Limited.call_req c) = ip.

#[global] Instance callOf_dec ip c : Decision (callOf ip c).
Proof. unfold callOf. apply _. Defined.

#[global] Instance oneWindow_dec ts : Decision (oneWindow ts).
Proof. induction ts as [|t ts IH]; simpl; apply _. Defined.

(** The stored record of an identity: no entry and no times are the same
    for the limiter. *)
Definition record (rateLimiter : Limited.store) (ip : jsstring) : list Z :=
  default [] (rateLimiter !! ip).

(** The time at which a call is served. *)
Definition callTime (c : Limited.call) : Z := now (Limited.call_env c).

(** The rate limiter lets the request pass. *)
Definition admitted (req : request) (e : env) (rateLimiter : Limited.store) : Prop :=
  is_Some (Limited.rateLimit (Limited.clientIP req) (now e) rateLimiter).

(** What the cleanup leaves of one record. *)
Definition stillRecent (now : Z) (times : list Z) : option (list Z) :=
  match List.filter (Limited.inWindow now) times with
  | [] => None
  | recentRequests => Some recentRequests
  end.

(** Inputs on which the handlers are run below. *)
Definition sampleRequest (v : jsval) : request :=
  {| method := GET;
     x_forwarded_for := Some (u "203.0.113.7, 10.0.0.1");
     x_real_ip := None;
     remoteAddress := None;
     query_vatId := v;
     body_vatId := JUndefined |}.

Definition sampleEnv (t : Z) (draw : bool) : env :=
  {| now := t; sweep_draw := draw;
     iso_requestDate := u "2024-01-01T00:00:00.000Z";
     iso_timestamp := u "2024-01-01T00:00:00.001Z" |}.

Definition sampleCall (v : jsval) (t : Z) (draw : bool) : Limited.call :=
  {| Limited.call_req := sampleRequest v;
     Limited.call_env := sampleEnv t draw;
     Limited.call_fetch := FetchRejected |}.

(** The lengths a match of a pattern can have. *)
Fixpoint lengths (r : regex) : list nat :=
  match r with
  | Bol | Eol => [O]
  | Lit l => [length l]
  | Rep _ lo hi => seq lo (S hi - lo)
  | Seq a b => flat_map (fun n => map (Nat.add n) (lengths b)) (lengths a)
  | Alt a b => lengths a ++ lengths b
  end.

(** The characters a match of a pattern can contain, as a class. *)
Fixpoint ranges (r : regex) : cclass :=
  match r with
  | Bol | Eol => []
  | Lit l => map (fun c => (c, c)) l
  | Rep cl _ _ => cl
  | Seq a b | Alt a b => ranges a ++ ranges b
  end.

(** Every range of [a] lies inside a range of [b]. *)
Definition class_subset (a b : cclass) : bool :=
  forallb (fun ra =>
    existsb (fun rb => (fst rb <=? fst ra) && (snd ra <=? snd rb))%N b) a.

(** Digits, capital letters and the two signs of the Irish pattern. *)
Definition idChars : cclass := [rng "0" "9"; rng "A" "Z"; chr "*"; chr "+"].

(** The pattern ends with [$]. *)
Definition ends_eol (r : regex) : bool :=
  match r with
  | Seq _ Eol => true
  | _ => false
  end.

(** A pattern of the tables: [^lit...$], of one of the registry prefixes or
    GR, with matches of 4 to 14 characters taken from [idChars]. *)
Definition wellShaped (kr : jsstring * regex) : bool :=
  match anchored_lit (snd kr) with
  | Some l =>
      ends_eol (snd kr)
      && (2 <=? length l)%nat
      && bool_decide (fst kr ∈ u "GR" :: jurisdictions)
      && forallb (fun n => (4 <=? n)%nat && (n <=? 14)%nat) (lengths (snd kr))
      && class_subset (ranges (snd kr)) idChars
  | None => false
  end.



(** Every record of the store is non-empty and holds at most 150 times. *)
Definition recordsBounded (rateLimiter : Limited.store) : Prop :=
  forall (ip : jsstring) (times : list Z),
    rateLimiter !! ip = Some times -> times <> [] /\ (length times <= 150)%nat.

(** The times of the calls are in the order of the clock, from [t0] on. *)
Fixpoint chronological (t0 : Z) (ts : list Z) : Prop :=
  match ts with
  | [] => True
  | t :: ts' => t0 <= t /\ chronological t ts'
  end.

(** The times of the requests of [ip] that the limiter admits while the calls
    are served one after the other. *)
Fixpoint admittedTimes (up : jsstring -> jsstring) (ip : jsstring)
    (cs : list Limited.call) (rateLimiter : Limited.store) : list Z :=
  match cs with
  | [] => []
  | c :: cs' =>
      (if decide (callOf ip c
                  /\ admitted (Limited.call_req c) (Limited.call_env c) rateLimiter)
       then [callTime c] else [])
      ++ admittedTimes up ip cs' (snd (Limited.serve up c rateLimiter))
  end.

#[global] Instance regex_eq_dec : EqDecision regex.
Proof. solve_decision. Defined.

(** The prefixes whose pattern is the prefix followed by a fixed number of
    digits, with that number. *)
Definition digitsOnly : list (jsstring * nat) :=
  map (fun p => (u (fst p), snd p))
    [("DE", 9); ("DK", 8); ("EE", 9); ("EL", 9); ("FI", 8); ("HR", 11);
     ("HU", 8); ("IT", 11); ("LU", 8); ("LV", 11); ("MT", 8); ("PL", 10);
     ("PT", 9); ("SE", 12); ("SI", 8); ("SK", 10); ("XI", 9)]%string%nat.

(** ** Normalization *)

Lemma stripWhitespace_idem s : stripWhitespace (stripWhitespace s) = stripWhitespace s.
Proof.
  unfold stripWhitespace. induction s as [|c s IH]; simpl; [done|].
  destruct (isWhitespace c) eqn:E; simpl; [done|]. by rewrite E, IH.
Qed.

Lemma asciiUpper_idem c : asciiUpper (asciiUpper c) = asciiUpper c.
Proof.
  unfold asciiUpper.
  destruct ((97 <=? c) && (c <=? 122))%N eqn:E; [|by rewrite E].
  apply andb_true_iff in E as [E1 E2].
  apply N.leb_le in E1. apply N.leb_le in E2.
  destruct ((97 <=? c - 32) && (c - 32 <=? 122))%N eqn:E'; [|done].
  apply andb_true_iff in E' as [E3 _]. apply N.leb_le in E3. lia.
Qed.

Lemma asciiUpper_whitespace c : isWhitespace (asciiUpper c) = isWhitespace c.
Proof.
  unfold asciiUpper.
  destruct ((97 <=? c) && (c <=? 122))%N eqn:E; [|done].
  apply andb_true_iff in E as [E1 E2].
  apply N.leb_le in E1. apply N.leb_le in E2.
  assert (Hc : forall x, (65 <= x <= 122)%N -> isWhitespace x = false).
  { intros x Hx. unfold isWhitespace.
    repeat match goal with
    | |- context [(?a <=? ?b)%N] => destruct (N.leb_spec a b)
    | |- context [(?a =? ?b)%N] => destruct (N.eqb_spec a b)
    end; simpl; try reflexivity; lia. }
  rewrite !Hc; [done| lia | lia].
Qed.

Lemma asciiToUpperCase_idem s :
  asciiToUpperCase (asciiToUpperCase s) = asciiToUpperCase s.
Proof.
  unfold asciiToUpperCase. rewrite map_map. apply map_ext. apply asciiUpper_idem.
Qed.

Lemma asciiToUpperCase_no_whitespace s :
  stripWhitespace s = s -> stripWhitespace (asciiToUpperCase s) = asciiToUpperCase s.
Proof.
  unfold stripWhitespace, asciiToUpperCase.
  induction s as [|c s IH]; simpl; [done|].
  rewrite asciiUpper_whitespace.
  destruct (isWhitespace c) eqn:E; simpl.
  - intros H. exfalso.
    assert (Hl : (length (List.filter (fun c => negb (isWhitespace c)) s) <= length s)%nat)
      by apply List.filter_length_le.
    rewrite H in Hl. simpl in Hl. lia.
  - intros H. injection H as H. by rewrite IH.
Qed.

(** C6. Normalization is idempotent, and splitting the normalized form into
    [countryCode] (the first two characters) and [vatNumber] (the rest)
    discards nothing.  The built-in [toUpperCase] enters through the two
    facts the argument needs: it is idempotent, and it puts no whitespace
    into a string that has none. *)
Theorem cleanVatId_idempotent_split (toUpperCase : jsstring -> jsstring) :
  (forall s, toUpperCase (toUpperCase s) = toUpperCase s) ->
  (forall s, stripWhitespace s = s ->
             stripWhitespace (toUpperCase s) = toUpperCase s) ->
  forall v : jsval,
    Limited.cleanVatId toUpperCase (JStr (Limited.cleanVatId toUpperCase v))
    = Limited.cleanVatId toUpperCase v
    /\ countryCode (Limited.cleanVatId toUpperCase v)
       ++ vatNumber (Limited.cleanVatId toUpperCase v)
       = Limited.cleanVatId toUpperCase v.
Proof.
  intros Hidem Hws v. split.
  - unfold Limited.cleanVatId. cbn [toString].
    rewrite (Hws _ (stripWhitespace_idem _)). apply Hidem.
  - unfold countryCode, vatNumber, substring_to, substring_from.
    apply take_drop.
Qed.

Lemma cleanVatId_idempotent_split_witness :
  (forall s, asciiToUpperCase (asciiToUpperCase s) = asciiToUpperCase s)
  /\ (forall s, stripWhitespace s = s ->
                stripWhitespace (asciiToUpperCase s) = asciiToUpperCase s)
  /\ Limited.cleanVatId asciiToUpperCase
       (JStr (Limited.cleanVatId asciiToUpperCase (JStr (u "de 123 456 789"))))
     = u "DE123456789"
  /\ countryCode (u "DE123456789") ++ vatNumber (u "DE123456789") = u "DE123456789".
Proof.
  split; [apply asciiToUpperCase_idem|].
  split; [apply asciiToUpperCase_no_whitespace|].
  exact (cleanVatId_idempotent_split asciiToUpperCase
           asciiToUpperCase_idem asciiToUpperCase_no_whitespace
           (JStr (u "de 123 456 789"))).
Defined.

(** ** The matcher against the shapes *)

Lemma is_prefix_app l post : is_prefix l (l ++ post) = true.
Proof. induction l as [|c l IH]; simpl; [done|]. by rewrite N.eqb_refl. Qed.

Lemma is_prefix_split l s : is_prefix l s = true -> s = l ++ drop (length l) s.
Proof.
  revert s. induction l as [|c l IH]; intros [|d s]; simpl; try done.
  intros [H1 H2]%andb_true_iff. apply N.eqb_eq in H1 as ->.
  f_equal. by apply IH.
Qed.

Lemma is_prefix_take l s : is_prefix l s = true -> take (length l) s = l.
Proof.
  intros H. rewrite (is_prefix_split l s H) at 1. by rewrite take_app_length.
Qed.

Lemma run_length_app cl m post :
  Forall (fun c => in_class cl c = true) m ->
  (length m <= run_length cl (m ++ post))%nat.
Proof.
  induction 1 as [|c m Hc _ IH]; simpl; [lia|]. rewrite Hc. lia.
Qed.

Lemma run_length_take cl s k :
  (k <= run_length cl s)%nat ->
  Forall (fun c => in_class cl c = true) (take k s).
Proof.
  revert k. induction s as [|c s IH]; intros [|k]; simpl; try by constructor.
  destruct (in_class cl c) eqn:E; [|lia].
  intros H. constructor; [done|]. apply IH. lia.
Qed.

(** Every shape is found by the matcher. *)
Lemma rmatch_complete r pre m post :
  lang r pre m post ->
  In ((length pre + length m)%nat, post) (rmatch r (length pre, m ++ post)).
Proof.
  induction 1 as [post|pre|l pre post|cl lo hi pre m post Hlen Hcl
                 |a b pre m1 m2 post _ IHa _ IHb|a b pre m post _ IH
                 |a b pre m post _ IH]; cbn [rmatch fst snd].
  - by left.
  - rewrite Nat.add_0_r. by left.
  - rewrite is_prefix_app. left. by rewrite drop_app_length.
  - apply in_map_iff. exists (length m). split.
    + by rewrite drop_app_length.
    + apply filter_In. split.
      * apply in_seq. pose proof (run_length_app cl m post Hcl). lia.
      * apply Nat.leb_le. lia.
  - apply in_flat_map. exists ((length pre + length m1)%nat, m2 ++ post). split.
    + by rewrite <- (assoc_L (++)).
    + rewrite length_app in IHb. rewrite length_app, Nat.add_assoc. exact IHb.
  - apply in_app_iff. by left.
  - apply in_app_iff. by right.
Qed.

(** Every position the matcher reaches is the end of a shape. *)
Lemma rmatch_sound r : forall i s j post,
  In (j, post) (rmatch r (i, s)) ->
  exists m, s = m ++ post /\ j = (i + length m)%nat
            /\ forall pre, length pre = i -> lang r pre m post.
Proof.
  induction r as [| |l|cl lo hi|a IHa b IHb|a IHa b IHb]; intros i s j post;
    cbn [rmatch fst snd].
  - destruct i; [|done]. intros [[= <- <-]|[]]. exists []. split; [done|].
    split; [done|]. intros pre Hpre. destruct pre; [|done]. constructor.
  - destruct s; [|done]. intros [[= <- <-]|[]]. exists []. split; [done|].
    split; [simpl; lia|]. intros pre _. constructor.
  - destruct (is_prefix l s) eqn:E; [|done]. intros [[= <- <-]|[]].
    exists l. split; [by apply is_prefix_split|]. split; [done|].
    intros pre _. constructor.
  - intros [k [[= <- <-] [Hk Hlo]%filter_In]]%in_map_iff.
    apply in_seq in Hk. apply Nat.leb_le in Hlo.
    assert (Hks : (k <= length s)%nat).
    { assert (forall t, (run_length cl t <= length t)%nat) as Hrl.
      { induction t as [|c t IH]; simpl; [lia|]. destruct (in_class cl c); simpl; lia. }
      specialize (Hrl s). lia. }
    exists (take k s). split; [by rewrite take_drop|].
    split; [rewrite length_take; lia|].
    intros pre _. constructor.
    + rewrite length_take. lia.
    + apply run_length_take. lia.
  - intros [[i1 s1] [H1 H2]]%in_flat_map.
    destruct (IHa _ _ _ _ H1) as (m1 & -> & -> & La).
    destruct (IHb _ _ _ _ H2) as (m2 & -> & -> & Lb).
    exists (m1 ++ m2). split; [by rewrite <- (assoc_L (++))|].
    split; [rewrite length_app; lia|].
    intros pre Hpre. constructor; [by apply La|].
    apply Lb. rewrite length_app. lia.
  - intros [H|H]%in_app_iff.
    + destruct (IHa _ _ _ _ H) as (m & -> & -> & La).
      exists m. split; [done|]. split; [done|].
      intros pre Hpre. apply lang_alt_l. by apply La.
    + destruct (IHb _ _ _ _ H) as (m & -> & -> & Lb).
      exists m. split; [done|]. split; [done|].
      intros pre Hpre. apply lang_alt_r. by apply Lb.
Qed.

(** [test] decides [matches]. *)
Lemma test_matches r s : test r s = true <-> matches r s.
Proof.
  unfold test, matches. rewrite existsb_exists. split.
  - intros (i & Hi & Hm). apply in_seq in Hi.
    destruct (rmatch r (i, drop i s)) as [|[j post] rest] eqn:E; [done|].
    destruct (rmatch_sound r i (drop i s) j post) as (m & Hs & _ & Hl).
    { rewrite E. by left. }
    exists (take i s), m, post. split.
    + by rewrite <- Hs, take_drop.
    + apply Hl. rewrite length_take. lia.
  - intros (pre & m & post & -> & Hl).
    exists (length pre). split.
    + apply in_seq. rewrite !length_app. lia.
    + rewrite drop_app_length.
      pose proof (rmatch_complete _ _ _ _ Hl) as Hin.
      by destruct (rmatch r (length pre, m ++ post)).
Qed.

Lemma rmatch_anchored r l :
  anchored_lit r = Some l ->
  forall st, rmatch r st <> [] -> fst st = O /\ is_prefix l (snd st) = true.
Proof.
  induction r as [| |l'|cl lo hi|a IHa b _|a _ b _]; try done.
  intros Ha st Hm.
  assert (Hstep : rmatch a st <> []).
  { intros E. apply Hm. cbn [rmatch]. by rewrite E. }
  destruct a; try (by apply IHa).
  destruct b; try done. cbn in Ha. injection Ha as ->.
  cbn [rmatch] in Hm. destruct (fst st); [|done]. split; [done|].
  cbn [flat_map rmatch] in Hm. by destruct (is_prefix l (snd st)).
Qed.

Lemma test_anchored r l s :
  anchored_lit r = Some l -> test r s = true -> is_prefix l s = true.
Proof.
  intros Ha (i & _ & Hm)%existsb_exists.
  destruct (rmatch_anchored r l Ha (i, drop i s)) as [Hi Hp].
  { intros E. by rewrite E in Hm. }
  cbn in Hi. subst i. exact Hp.
Qed.

Lemma is_prefix_countryCode l s :
  (2 <= length l)%nat -> is_prefix l s = true -> countryCode s = take 2 l.
Proof.
  intros Hl Hp. unfold countryCode, substring_to.
  rewrite (is_prefix_split l s Hp). by rewrite take_app_le.
Qed.

(** A covered prefix dispatches every identifier of its shape to its own
    pattern. *)
Lemma covered_passes t cc :
  covered t cc = true ->
  exists r, lookup_key cc t = Some r
            /\ forall s, matches r s -> checkFormat t s = FormatOk.
Proof.
  unfold covered. destruct (lookup_key cc t) as [r|] eqn:Hr; [|done].
  destruct (anchored_lit r) as [l|] eqn:Hl; [|done].
  intros [Hcc Hlen]%andb_true_iff.
  apply bool_decide_eq_true in Hcc. apply Nat.leb_le in Hlen.
  exists r. split; [done|]. intros s Hs%test_matches.
  unfold checkFormat.
  rewrite (is_prefix_countryCode l s Hlen (test_anchored r l s Hl Hs)).
  by rewrite Hcc, Hr, Hs.
Qed.

(** The two tables agree away from the two prefixes the later one adds. *)
Lemma vatFormats_agree k :
  k <> u "EL" -> k <> u "XI" ->
  lookup_key k Limited.vatFormats = lookup_key k Basic.vatFormats.
Proof.
  intros HEL HXI. unfold Limited.vatFormats, Basic.vatFormats.
  cbn [lookup_key]. repeat (case_decide; [done|]). done.
Qed.

(** What the earlier table lacks. *)
Lemma Basic_vatFormats_lacks :
  lookup_key (u "EL") Basic.vatFormats = None
  /\ lookup_key (u "XI") Basic.vatFormats = None.
Proof. split; reflexivity. Qed.

(** ** The rule table *)

(** C3. The rule table has an entry for Greece under its ISO code GR and
    under the code EL of the registry, and both keys map to the same
    pattern, [^EL\d{9}$].  The entry under GR of the earlier table is that
    pattern too. *)
Theorem vatFormats_greece_synonyms :
  exists r,
    lookup_key (u "GR") Limited.vatFormats = Some r
    /\ lookup_key (u "EL") Limited.vatFormats = Some r
    /\ r = (Bol ⋅ L "EL" ⋅ D 9 ⋅ Eol)%re
    /\ lookup_key (u "GR") Basic.vatFormats = Some r.
Proof. eexists. repeat split; reflexivity. Qed.

(** C4. The rule table covers the 27 member states and Northern Ireland
    (XI): each of the 28 prefixes has a pattern, every identifier of the
    shape that pattern describes passes the format check, and so does the
    sample identifier of each prefix.  The ISO code GR has its entry too.
    The earlier table does the same for the 26 prefixes other than EL and
    XI. *)
Theorem vatFormats_cover_jurisdictions :
  length jurisdictions = 28%nat
  /\ NoDup jurisdictions
  /\ Forall (fun cc =>
       exists r, lookup_key cc Limited.vatFormats = Some r
                 /\ forall s, matches r s ->
                              checkFormat Limited.vatFormats s = FormatOk)
       jurisdictions
  /\ is_Some (lookup_key (u "GR") Limited.vatFormats)
  /\ Forall2 (fun cc s =>
       countryCode s = cc /\ checkFormat Limited.vatFormats s = FormatOk)
       jurisdictions samples
  /\ Forall (fun cc =>
       cc <> u "EL" -> cc <> u "XI" ->
       exists r, lookup_key cc Basic.vatFormats = Some r
                 /\ forall s, matches r s ->
                              checkFormat Basic.vatFormats s = FormatOk)
       jurisdictions.
Proof.
  split; [reflexivity|].
  split; [apply (bool_decide_unpack _); vm_compute; exact I|].
  split.
  - apply Forall_forall. intros cc Hcc. apply covered_passes.
    assert (H : forallb (covered Limited.vatFormats) jurisdictions = true)
      by (vm_compute; reflexivity).
    rewrite forallb_forall in H. apply H. by apply list_elem_of_In.
  - split; [by eexists|]. split.
    + unfold jurisdictions, samples. cbn [map].
      repeat (constructor; [split; vm_compute; reflexivity|]). constructor.
    + apply Forall_forall. intros cc Hcc HEL HXI. apply covered_passes.
      assert (H : forallb (fun cc => covered Limited.vatFormats cc) jurisdictions
                  = true) by (vm_compute; reflexivity).
      rewrite forallb_forall in H. apply list_elem_of_In, H in Hcc.
      unfold covered in *. by rewrite <- vatFormats_agree.
Qed.

Lemma method_not_options (req : request) :
  method req = GET \/ method req = POST -> method req <> OPTIONS.
Proof. intros [H|H] E; rewrite H in E; discriminate E. Qed.

Lemma method_allowed (req : request) :
  method req = GET \/ method req = POST ->
  ~ (method req <> GET /\ method req <> POST).
Proof. intros [H|H] [H1 H2]; contradiction. Qed.

(** Passes the OPTIONS and the method check of a handler for a request
    known to be GET or POST. *)
Ltac allowed_method Hm :=
  match goal with
  | |- context [decide (method ?r = OPTIONS)] =>
      destruct (decide (method r = OPTIONS)) as [?|_];
      [by apply method_not_options in Hm|];
      destruct (decide (method r <> GET /\ method r <> POST)) as [?|_];
      [by apply method_allowed in Hm|]
  end.

(** The earlier handler, on a GET or POST request that carries an identifier,
    is its format check. *)
Lemma Basic_handler_validates up req e :
  method req = GET \/ method req = POST ->
  truthy (vatId req) = true ->
  Basic.handler up req e =
    match checkFormat Basic.vatFormats (Basic.cleanVatId up (vatId req)) with
    | UnknownCountry => Respond (unknownCountry (Basic.cleanVatId up (vatId req)))
    | BadFormat => Respond (badFormat (Basic.cleanVatId up (vatId req)))
    | FormatOk => CallVies (viesUrl (Basic.cleanVatId up (vatId req)))
                           (viesReply (Basic.cleanVatId up (vatId req)) e)
    end.
Proof.
  intros Hm Ht. unfold Basic.handler.
  allowed_method Hm.
  by rewrite Ht.
Qed.

Lemma Limited_validate_validates up req e :
  truthy (vatId req) = true ->
  Limited.validate up req e =
    match checkFormat Limited.vatFormats (Limited.cleanVatId up (vatId req)) with
    | UnknownCountry => Respond (unknownCountry (Limited.cleanVatId up (vatId req)))
    | BadFormat => Respond (badFormat (Limited.cleanVatId up (vatId req)))
    | FormatOk => CallVies (viesUrl (Limited.cleanVatId up (vatId req)))
                           (viesReply (Limited.cleanVatId up (vatId req)) e)
    end.
Proof. intros Ht. unfold Limited.validate. by rewrite Ht. Qed.

(** The entry under GR rejects whatever starts with GR. *)
Lemma gr_entry_rejects c :
  countryCode c = u "GR" -> test (Bol ⋅ L "EL" ⋅ D 9 ⋅ Eol)%re c = false.
Proof.
  intros Hc. destruct (test _ c) eqn:E; [exfalso|done].
  apply (test_anchored _ (u "EL")) in E; [|reflexivity].
  apply is_prefix_countryCode in E; [|vm_compute; lia].
  rewrite Hc in E. discriminate E.
Qed.

(** C8. A normalized identifier whose first two characters are GR never
    passes the format check: the table has an entry under GR, but its pattern
    asks for the prefix EL.  In both handlers the check ends in the branch of
    a known country with a bad format, the response is the 400 of that
    branch, and the registry is not called. *)
Theorem gr_prefix_always_bad_format (c : jsstring) :
  countryCode c = u "GR" ->
  checkFormat Limited.vatFormats c = BadFormat
  /\ checkFormat Basic.vatFormats c = BadFormat
  /\ status (badFormat c) = 400
  /\ forall up req e,
       truthy (vatId req) = true ->
       Limited.cleanVatId up (vatId req) = c ->
       Limited.validate up req e = Respond (badFormat c)
       /\ (forall rl, exists r, fst (Limited.handler up req e rl) = Respond r)
       /\ (method req = GET \/ method req = POST ->
           Basic.handler up req e = Respond (badFormat c)).
Proof.
  intros Hc.
  assert (HL : checkFormat Limited.vatFormats c = BadFormat).
  { unfold checkFormat. rewrite Hc.
    change (lookup_key (u "GR") Limited.vatFormats)
      with (Some (Bol ⋅ L "EL" ⋅ D 9 ⋅ Eol)%re).
    cbv beta iota. by rewrite gr_entry_rejects. }
  assert (HB : checkFormat Basic.vatFormats c = BadFormat).
  { unfold checkFormat. rewrite Hc.
    change (lookup_key (u "GR") Basic.vatFormats)
      with (Some (Bol ⋅ L "EL" ⋅ D 9 ⋅ Eol)%re).
    cbv beta iota. by rewrite gr_entry_rejects. }
  split; [done|]. split; [done|]. split; [done|].
  intros up req e Ht Hclean.
  assert (Hv : Limited.validate up req e = Respond (badFormat c)).
  { rewrite Limited_validate_validates by done. by rewrite Hclean, HL. }
  split; [done|]. split.
  - intros rl. unfold Limited.handler.
    destruct (decide (method req = OPTIONS)); [by eexists|].
    destruct (decide (method req <> GET /\ method req <> POST)); [by eexists|].
    destruct (Limited.rateLimit _ _ rl); [|by eexists].
    cbn [fst]. rewrite Hv. by eexists.
  - intros Hm. rewrite Basic_handler_validates by done.
    change (Basic.cleanVatId up (vatId req))
      with (Limited.cleanVatId up (vatId req)).
    by rewrite Hclean, HB.
Qed.

Lemma gr_prefix_always_bad_format_witness :
  countryCode (u "GR123456789") = u "GR"
  /\ checkFormat Limited.vatFormats (u "GR123456789") = BadFormat
  /\ checkFormat Basic.vatFormats (u "GR123456789") = BadFormat.
Proof.
  split; [reflexivity|].
  pose proof (gr_prefix_always_bad_format (u "GR123456789") eq_refl) as H.
  split; [exact (proj1 H)|exact (proj1 (proj2 H))].
Defined.

(** C10. On a normalized identifier whose first two characters are neither
    EL nor XI the format checks of the two handlers take the same branch, and
    the two handlers answer a GET or POST request that carries it alike. *)
Theorem format_stage_equivalent (c : jsstring) :
  countryCode c <> u "EL" ->
  countryCode c <> u "XI" ->
  checkFormat Limited.vatFormats c = checkFormat Basic.vatFormats c
  /\ forall up req e,
       method req = GET \/ method req = POST ->
       truthy (vatId req) = true ->
       Limited.cleanVatId up (vatId req) = c ->
       Limited.validate up req e = Basic.handler up req e.
Proof.
  intros HEL HXI.
  assert (H : checkFormat Limited.vatFormats c = checkFormat Basic.vatFormats c).
  { unfold checkFormat. by rewrite vatFormats_agree. }
  split; [done|]. intros up req e Hm Ht Hc.
  rewrite Limited_validate_validates, Basic_handler_validates by done.
  change (Basic.cleanVatId up (vatId req)) with (Limited.cleanVatId up (vatId req)).
  by rewrite Hc, H.
Qed.

Lemma format_stage_equivalent_witness :
  countryCode (u "DE123456789") <> u "EL"
  /\ countryCode (u "DE123456789") <> u "XI"
  /\ checkFormat Limited.vatFormats (u "DE123456789") = FormatOk
  /\ checkFormat Basic.vatFormats (u "DE123456789") = FormatOk.
Proof.
  assert (H1 : countryCode (u "DE123456789") <> u "EL") by (intros E; discriminate E).
  assert (H2 : countryCode (u "DE123456789") <> u "XI") by (intros E; discriminate E).
  split; [exact H1|]. split; [exact H2|]. split; [reflexivity|].
  rewrite <- (proj1 (format_stage_equivalent (u "DE123456789") H1 H2)).
  reflexivity.
Defined.

(** Where the two format checks part: the prefixes EL and XI. *)
Lemma format_stage_differs :
  checkFormat Limited.vatFormats (u "EL123456789") = FormatOk
  /\ checkFormat Basic.vatFormats (u "EL123456789") = UnknownCountry
  /\ checkFormat Limited.vatFormats (u "XI123456789") = FormatOk
  /\ checkFormat Basic.vatFormats (u "XI123456789") = UnknownCountry.
Proof. repeat split; reflexivity. Qed.

(** ** The rate limiter *)

Lemma inWindow_lt now t : Limited.inWindow now t = true <-> now - t < 3600000.
Proof. unfold Limited.inWindow. apply Z.ltb_lt. Qed.

Lemma filter_inWindow_all now l :
  Forall (fun t => now - t < 3600000) l ->
  List.filter (Limited.inWindow now) l = l.
Proof.
  induction 1 as [|t l Ht _ IH]; simpl; [done|].
  apply inWindow_lt in Ht. by rewrite Ht, IH.
Qed.

Lemma filter_inWindow_idem now l :
  List.filter (Limited.inWindow now) (List.filter (Limited.inWindow now) l)
  = List.filter (Limited.inWindow now) l.
Proof.
  apply filter_inWindow_all, List.Forall_forall.
  intros t [_ Ht]%filter_In. by apply inWindow_lt.
Qed.

(** The cleanup loop, entry by entry: an entry of the map it iterates is
    re-filtered, any other entry of the map it updates is left alone. *)
Lemma sweep_from_lookup (now : Z) (acc m : Limited.store) (ip : jsstring) :
  map_fold (Limited.sweepEntry now) acc m !! ip =
    match m !! ip with
    | Some times => stillRecent now times
    | None => acc !! ip
    end.
Proof.
  revert ip.
  apply (map_fold_weak_ind
           (fun (r m : Limited.store) => forall ip, r !! ip =
              match m !! ip with
              | Some times => stillRecent now times
              | None => acc !! ip
              end)).
  - intros ip. by rewrite lookup_empty.
  - intros i x m' r Hi IH ip. unfold Limited.sweepEntry, stillRecent.
    destruct (decide (i = ip)) as [->|Hne].
    + rewrite lookup_insert_eq.
      destruct (List.filter (Limited.inWindow now) x);
        [by rewrite lookup_delete_eq | by rewrite lookup_insert_eq].
    + rewrite (lookup_insert_ne m') by done.
      destruct (List.filter (Limited.inWindow now) x);
        [rewrite lookup_delete_ne by done | rewrite lookup_insert_ne by done];
        apply IH.
Qed.

Lemma sweep_lookup (now : Z) (rl : Limited.store) (ip : jsstring) :
  Limited.sweep now rl !! ip = rl !! ip ≫= stillRecent now.
Proof.
  unfold Limited.sweep. rewrite sweep_from_lookup. by destruct (rl !! ip).
Qed.

Lemma record_sweep (now : Z) (rl : Limited.store) (ip : jsstring) :
  record (Limited.sweep now rl) ip = List.filter (Limited.inWindow now) (record rl ip).
Proof.
  unfold record. rewrite sweep_lookup. destruct (rl !! ip) as [times|]; [|done].
  cbn. unfold stillRecent. by destruct (List.filter _ times).
Qed.

Lemma rateLimit_spec (ip : jsstring) (now : Z) (rl : Limited.store) :
  Limited.rateLimit ip now rl =
    let requests := List.filter (Limited.inWindow now) (record rl ip) in
    if (Limited.limit <=? length requests)%nat then None
    else Some (<[ip := requests ++ [now]]> rl).
Proof.
  unfold Limited.rateLimit, record. by destruct (rl !! ip).
Qed.

Lemma admitted_iff (req : request) (e : env) (rl : Limited.store) :
  admitted req e rl <->
  (length (List.filter (Limited.inWindow (now e)) (record rl (Limited.clientIP req)))
   < 150)%nat.
Proof.
  unfold admitted. rewrite rateLimit_spec. cbv zeta. unfold Limited.limit.
  destruct (Nat.leb_spec 150
    (length (List.filter (Limited.inWindow (now e)) (record rl (Limited.clientIP req)))));
    split; try done; try lia.
Qed.

(** Once every stored time of an identity has left the window, the identity
    is admitted again. *)
Lemma admitted_after_window (req : request) (e : env) (rl : Limited.store) :
  Forall (fun t => 3600000 <= now e - t) (record rl (Limited.clientIP req)) ->
  admitted req e rl.
Proof.
  intros H. apply admitted_iff.
  replace (List.filter _ _) with (@nil Z); [cbn; lia|].
  symmetry. induction H as [|t l Ht _ IH]; cbn; [done|].
  unfold Limited.inWindow at 1.
  destruct (Z.ltb_spec (now e - t) 3600000); [lia|done].
Qed.

(** The handler on a GET or POST request, by what the limiter says. *)
Lemma handler_admitted (up : jsstring -> jsstring) (req : request) (e : env) (rl : Limited.store) :
  method req = GET \/ method req = POST ->
  admitted req e rl ->
  let ip := Limited.clientIP req in
  let requests := List.filter (Limited.inWindow (now e)) (record rl ip) in
  fst (Limited.handler up req e rl) = Limited.validate up req e
  /\ snd (Limited.handler up req e rl) !! ip = Some (requests ++ [now e])
  /\ forall ip', ip' <> ip ->
       record (snd (Limited.handler up req e rl)) ip' =
         if sweep_draw e then List.filter (Limited.inWindow (now e)) (record rl ip')
         else record rl ip'.
Proof.
  intros Hm Ha ip requests. unfold Limited.handler.
  allowed_method Hm.
  pose proof Ha as Hlt. apply admitted_iff in Hlt.
  rewrite rateLimit_spec. cbv zeta. fold ip. fold requests.
  unfold Limited.limit.
  destruct (Nat.leb_spec 150 (length requests)) as [Hge|_];
    [fold ip requests in Hlt; lia|].
  cbn [fst snd]. split; [done|]. split.
  - destruct (sweep_draw e).
    + rewrite sweep_lookup, lookup_insert_eq. cbn. unfold stillRecent.
      rewrite List.filter_app. unfold requests at 1.
      rewrite filter_inWindow_idem. fold requests. cbn [List.filter].
      replace (Limited.inWindow (now e) (now e)) with true
        by (symmetry; apply inWindow_lt; lia).
      by destruct requests.
    + by rewrite lookup_insert_eq.
  - intros ip' Hne. destruct (sweep_draw e).
    + rewrite record_sweep. unfold record. by rewrite lookup_insert_ne.
    + unfold record. by rewrite lookup_insert_ne.
Qed.

Lemma handler_rejected (up : jsstring -> jsstring) (req : request) (e : env) (rl : Limited.store) :
  method req = GET \/ method req = POST ->
  ~ admitted req e rl ->
  Limited.handler up req e rl = (Respond Limited.tooManyRequests, rl).
Proof.
  intros Hm Ha. unfold Limited.handler.
  allowed_method Hm.
  unfold admitted in Ha.
  destruct (Limited.rateLimit _ _ rl); [|done]. exfalso. apply Ha. by eexists.
Qed.

Lemma handler_other_method (up : jsstring -> jsstring) (req : request) (e : env) (rl : Limited.store) :
  ~ (method req = GET \/ method req = POST) ->
  snd (Limited.handler up req e rl) = rl
  /\ (fst (Limited.handler up req e rl) = Respond (ended 200)
      \/ fst (Limited.handler up req e rl) = Respond methodNotAllowed).
Proof.
  intros Hm. unfold Limited.handler.
  destruct (decide (method req = OPTIONS)); [by auto|].
  destruct (decide (method req <> GET /\ method req <> POST)) as [|E]; [by auto|].
  exfalso. apply Hm.
  destruct (decide (method req = GET)); [by left|].
  destruct (decide (method req = POST)); [by right|].
  exfalso. by apply E.
Qed.

(** The responses after the limiter are 400s and 200s. *)
Lemma validate_status up req e f :
  status (complete (Limited.validate up req e) f) = 400
  \/ status (complete (Limited.validate up req e) f) = 200.
Proof.
  unfold Limited.validate.
  destruct (truthy (vatId req)); cbn; [|by left].
  destruct (checkFormat _ _); cbn; [by left|by left|right].
  destruct f as [|[] [| |? ? ? ?]]; reflexivity.
Qed.

Lemma record_lookup (rl : Limited.store) (ip : jsstring) (t : Z) :
  In t (record rl ip) -> rl !! ip = Some (record rl ip).
Proof. unfold record. by destruct (rl !! ip). Qed.

(** C5. The cleanup never deletes an identity that still has a time inside
    the window: such an identity keeps its re-filtered record, the time
    included, and an identity is removed only when its re-filtered record is
    empty.  The same holds for a whole call of the handler, whose cleanup
    runs (when it runs) after the limiter. *)
Theorem sweep_keeps_recent_identities
    (n : Z) (rl : Limited.store) (ip : jsstring) (times : list Z) :
  rl !! ip = Some times ->
  let recentRequests := List.filter (Limited.inWindow n) times in
  (forall t, In t times -> n - t < 3600000 ->
     Limited.sweep n rl !! ip = Some recentRequests /\ In t recentRequests)
  /\ (Limited.sweep n rl !! ip = None <-> recentRequests = [])
  /\ (forall (up : jsstring -> jsstring) (req : request) (e : env) (t : Z),
        In t times -> now e - t < 3600000 ->
        exists times', snd (Limited.handler up req e rl) !! ip = Some times'
                       /\ In t times').
Proof.
  intros Hip recentRequests.
  assert (Hsw : Limited.sweep n rl !! ip = stillRecent n times)
    by (by rewrite sweep_lookup, Hip).
  split; [|split].
  - intros t Ht Hw.
    assert (Hin : In t recentRequests)
      by (apply filter_In; split; [done|by apply inWindow_lt]).
    split; [|done]. rewrite Hsw. unfold stillRecent. fold recentRequests.
    by destruct recentRequests.
  - rewrite Hsw. unfold stillRecent. fold recentRequests.
    by destruct recentRequests.
  - intros up req e t Ht Hw.
    assert (Hrec : record rl ip = times) by (unfold record; by rewrite Hip).
    assert (Hkeep : In t (List.filter (Limited.inWindow (now e)) times))
      by (apply filter_In; split; [done|by apply inWindow_lt]).
    destruct (decide (method req = GET \/ method req = POST)) as [Hm|Hm];
      [|exists times; by rewrite (proj1 (handler_other_method up req e rl Hm))].
    destruct (decide (admitted req e rl)) as [Ha|Ha];
      [|exists times; by rewrite (handler_rejected up req e rl Hm Ha)].
    destruct (handler_admitted up req e rl Hm Ha) as (_ & Hown & Hother).
    destruct (decide (ip = Limited.clientIP req)) as [->|Hne].
    + eexists. split; [exact Hown|]. rewrite Hrec. apply in_or_app. by left.
    + specialize (Hother ip Hne). rewrite Hrec in Hother.
      assert (Hin : In t (record (Limited.handler up req e rl).2 ip)).
      { rewrite Hother. by destruct (sweep_draw e). }
      eexists. split; [exact (record_lookup _ _ _ Hin)|done].
Qed.

Lemma sweep_keeps_recent_identities_witness :
  ({[ u "10.0.0.1" := [0; 3599999; 3600000] ]} : Limited.store) !! u "10.0.0.1"
    = Some [0; 3599999; 3600000]
  /\ Limited.sweep 3600000 {[ u "10.0.0.1" := [0; 3599999; 3600000] ]} !! u "10.0.0.1"
     = Some [3599999; 3600000].
Proof.
  split; [reflexivity|].
  exact (proj1 (proj1 (sweep_keeps_recent_identities 3600000
           {[ u "10.0.0.1" := [0; 3599999; 3600000] ]} (u "10.0.0.1")
           [0; 3599999; 3600000] eq_refl) 3599999
           (or_intror (or_introl eq_refl)) eq_refl)).
Defined.

Lemma serve_fst (up : jsstring -> jsstring) (c : Limited.call) (rl : Limited.store) :
  fst (Limited.serve up c rl)
  = complete (fst (Limited.handler up (Limited.call_req c) (Limited.call_env c) rl))
             (Limited.call_fetch c).
Proof. unfold Limited.serve. by destruct (Limited.handler _ _ _ _). Qed.

Lemma serve_snd (up : jsstring -> jsstring) (c : Limited.call) (rl : Limited.store) :
  snd (Limited.serve up c rl)
  = snd (Limited.handler up (Limited.call_req c) (Limited.call_env c) rl).
Proof. unfold Limited.serve. by destruct (Limited.handler _ _ _ _). Qed.

Lemma serveAll_cons (up : jsstring -> jsstring) (c : Limited.call)
    (cs : list Limited.call) (rl : Limited.store) :
  Limited.serveAll up (c :: cs) rl
  = (fst (Limited.serve up c rl)
       :: fst (Limited.serveAll up cs (snd (Limited.serve up c rl))),
     snd (Limited.serveAll up cs (snd (Limited.serve up c rl)))).
Proof.
  cbn [Limited.serveAll]. destruct (Limited.serve up c rl) as [r rl1].
  cbn [fst snd]. by destruct (Limited.serveAll up cs rl1).
Qed.

(** One call of the identity [ip], whose stored times all lie in the window. *)
Lemma serve_call (up : jsstring -> jsstring) (ip : jsstring) (c : Limited.call)
    (rl : Limited.store) :
  Forall (fun t => callTime c - t < 3600000) (record rl ip) ->
  callOf ip c ->
  ((length (record rl ip) < 150)%nat ->
     fst (Limited.serve up c rl)
     = complete (Limited.validate up (Limited.call_req c) (Limited.call_env c))
                (Limited.call_fetch c)
     /\ record (snd (Limited.serve up c rl)) ip = record rl ip ++ [callTime c])
  /\ ((150 <= length (record rl ip))%nat ->
      Limited.serve up c rl = (Limited.tooManyRequests, rl)).
Proof.
  intros Hw [Hm <-]. unfold callTime in *.
  pose proof (admitted_iff (Limited.call_req c) (Limited.call_env c) rl) as Ha.
  rewrite (filter_inWindow_all _ _ Hw) in Ha.
  split; intros Hlen.
  - apply Ha in Hlen.
    destruct (handler_admitted up _ _ rl Hm Hlen) as (Hfst & Hown & _).
    rewrite (filter_inWindow_all _ _ Hw) in Hown.
    rewrite serve_fst, serve_snd, Hfst. split; [done|].
    unfold record at 1. by rewrite Hown.
  - assert (Hno : ~ admitted (Limited.call_req c) (Limited.call_env c) rl)
      by (rewrite Ha; lia).
    apply injective_projections; cbn [fst snd].
    + by rewrite serve_fst, (handler_rejected up _ _ rl Hm Hno).
    + by rewrite serve_snd, (handler_rejected up _ _ rl Hm Hno).
Qed.

(** Any other call leaves such a record as it is. *)
Lemma serve_other (up : jsstring -> jsstring) (ip : jsstring) (c : Limited.call)
    (rl : Limited.store) :
  Forall (fun t => callTime c - t < 3600000) (record rl ip) ->
  ~ callOf ip c ->
  record (snd (Limited.serve up c rl)) ip = record rl ip.
Proof.
  intros Hw Hc. rewrite serve_snd. unfold callTime in Hw.
  destruct (decide (method (Limited.call_req c) = GET
                    \/ method (Limited.call_req c) = POST)) as [Hm|Hm];
    [|by rewrite (proj1 (handler_other_method up _ _ rl Hm))].
  destruct (decide (admitted (Limited.call_req c) (Limited.call_env c) rl)) as [Ha|Ha];
    [|by rewrite (handler_rejected up _ _ rl Hm Ha)].
  destruct (handler_admitted up _ _ rl Hm Ha) as (_ & _ & Hother).
  rewrite Hother.
  - destruct (sweep_draw _); [by apply filter_inWindow_all|done].
  - intros ->. apply Hc. by split.
Qed.

(** The calls served one after the other, from a record [acc] of at most
    150 times, when every time of the record and of the calls lies in one
    window. *)
Lemma serveAll_window (up : jsstring -> jsstring) (ip : jsstring) :
  forall (cs : list Limited.call) (rl : Limited.store),
  (length (record rl ip) <= 150)%nat ->
  Forall (fun t => Forall (fun t' => t' - t < 3600000) (map callTime cs))
         (record rl ip) ->
  oneWindow (map callTime cs) ->
  (forall k c, cs !! k = Some c -> callOf ip c ->
     fst (Limited.serveAll up cs rl) !! k =
       Some (if decide (length (record rl ip)
                        + length (filter (callOf ip) (take k cs)) < 150)%nat
             then complete (Limited.validate up (Limited.call_req c)
                              (Limited.call_env c)) (Limited.call_fetch c)
             else Limited.tooManyRequests))
  /\ record (snd (Limited.serveAll up cs rl)) ip
     = take 150 (record rl ip ++ map callTime (filter (callOf ip) cs)).
Proof.
  induction cs as [|c cs IH]; intros rl Hlen Hacc Hwin.
  - split; [done|]. cbn. rewrite app_nil_r. by rewrite take_ge.
  - rewrite serveAll_cons. cbn [fst snd]. cbn [map oneWindow] in Hacc, Hwin.
    destruct Hwin as [Hc Hwin].
    assert (Hnow : Forall (fun t => callTime c - t < 3600000) (record rl ip)).
    { eapply Forall_impl; [exact Hacc|]. intros t Ht. by inversion Ht. }
    assert (Hrest : Forall (fun t => Forall (fun t' => t' - t < 3600000)
                                       (map callTime cs)) (record rl ip)).
    { eapply Forall_impl; [exact Hacc|]. intros t Ht. by inversion Ht. }
    destruct (decide (callOf ip c)) as [Hcall|Hcall].
    + destruct (serve_call up ip c rl Hnow Hcall) as [Hadm Hrej].
      rewrite (filter_cons_True _ _ _ Hcall). cbn [map].
      destruct (decide (length (record rl ip) < 150)%nat) as [Hlt|Hge].
      * destruct (Hadm Hlt) as [Hr Hrec].
        destruct (IH (snd (Limited.serve up c rl))) as [IHk IHrec].
        { rewrite Hrec, length_app. cbn. lia. }
        { rewrite Hrec. apply Forall_app. split; [done|]. by constructor. }
        { done. }
        split.
        -- intros [|k] c' Hk Hc'.
           ++ cbn in Hk. injection Hk as <-. cbn [lookup list_lookup take].
              rewrite Hr. rewrite filter_nil. cbn [length].
              by rewrite decide_True by lia.
           ++ cbn in Hk. cbn [take]. rewrite (filter_cons_True _ _ _ Hcall).
              change ((fst (Limited.serve up c rl) :: ?l) !! S k) with (l !! k).
              rewrite (IHk k c' Hk Hc'), Hrec, length_app. cbn [length].
              repeat case_decide; try done; lia.
        -- rewrite IHrec, Hrec. by rewrite <- (assoc_L (++)).
      * rewrite (Hrej ltac:(lia)). cbn [fst snd].
        destruct (IH rl Hlen Hrest Hwin) as [IHk IHrec].
        split.
        -- intros [|k] c' Hk Hc'.
           ++ cbn [lookup list_lookup]. by rewrite decide_False by lia.
           ++ cbn in Hk. cbn [take]. rewrite (filter_cons_True _ _ _ Hcall).
              change ((Limited.tooManyRequests :: ?l) !! S k) with (l !! k).
              rewrite (IHk k c' Hk Hc'). cbn [length].
              repeat case_decide; try done; lia.
        -- rewrite IHrec. rewrite !take_app_le by lia. done.
    + pose proof (serve_other up ip c rl Hnow Hcall) as Hrec.
      rewrite (filter_cons_False _ _ _ Hcall).
      destruct (IH (snd (Limited.serve up c rl))) as [IHk IHrec];
        [by rewrite Hrec..|done|].
      split.
      * intros [|k] c' Hk Hc'.
        -- cbn in Hk. injection Hk as <-. contradiction.
        -- cbn in Hk. cbn [take]. rewrite (filter_cons_False _ _ _ Hcall).
           change ((fst (Limited.serve up c rl) :: ?l) !! S k) with (l !! k).
           by rewrite (IHk k c' Hk Hc'), Hrec.
      * by rewrite IHrec, Hrec.
Qed.

(** C1. For one client identity without stored times, and calls served
    within one window of 3600 seconds (calls of other identities and
    cleanups may come in between): the first 150 GET or POST requests of the
    identity are admitted and answered by the stages after the limiter, every
    later one is rejected with status 429 and retryAfter 3600.  A rejected
    request leaves the store as it was, so the record of the identity holds
    the times of the 150 admitted requests and no other. *)
Theorem rate_limiter_admits_150
    (up : jsstring -> jsstring) (ip : jsstring)
    (cs : list Limited.call) (rl : Limited.store) :
  record rl ip = [] ->
  oneWindow (map callTime cs) ->
  (forall k c, cs !! k = Some c -> callOf ip c ->
     fst (Limited.serveAll up cs rl) !! k =
       Some (if decide (length (filter (callOf ip) (take k cs)) < 150)%nat
             then complete (Limited.validate up (Limited.call_req c)
                              (Limited.call_env c)) (Limited.call_fetch c)
             else Limited.tooManyRequests))
  /\ record (snd (Limited.serveAll up cs rl)) ip
     = take 150 (map callTime (filter (callOf ip) cs))
  /\ status Limited.tooManyRequests = 429
  /\ field "retryAfter" Limited.tooManyRequests = Some (JNum 3600)
  /\ (forall req e f, status (complete (Limited.validate up req e) f) <> 429)
  /\ (forall c rl0, fst (Limited.serve up c rl0) = Limited.tooManyRequests ->
                    snd (Limited.serve up c rl0) = rl0).
Proof.
  intros Hrec Hwin.
  destruct (serveAll_window up ip cs rl) as [Hk Hfinal].
  { rewrite Hrec. cbn. lia. }
  { rewrite Hrec. constructor. }
  { done. }
  rewrite Hrec in Hk, Hfinal. cbn [length Nat.add app] in Hk, Hfinal.
  split; [exact Hk|]. split; [exact Hfinal|].
  split; [reflexivity|]. split; [reflexivity|]. split.
  - intros req e f. destruct (validate_status up req e f) as [-> | ->]; lia.
  - intros c rl0 Hr. rewrite serve_snd. rewrite serve_fst in Hr.
    destruct (decide (method (Limited.call_req c) = GET
                      \/ method (Limited.call_req c) = POST)) as [Hm|Hm];
      [|by rewrite (proj1 (handler_other_method up _ _ rl0 Hm))].
    destruct (decide (admitted (Limited.call_req c) (Limited.call_env c) rl0))
      as [Ha|Ha]; [|by rewrite (handler_rejected up _ _ rl0 Hm Ha)].
    exfalso. rewrite (proj1 (handler_admitted up _ _ rl0 Hm Ha)) in Hr.
    pose proof (validate_status up (Limited.call_req c) (Limited.call_env c)
                  (Limited.call_fetch c)) as Hs.
    rewrite Hr in Hs. by destruct Hs.
Qed.

Lemma rate_limiter_admits_150_witness :
  record (∅ : Limited.store) (u "203.0.113.7") = []
  /\ oneWindow (map callTime (repeat (sampleCall JUndefined 1000 true) 151))
  /\ fst (Limited.serveAll asciiToUpperCase
            (repeat (sampleCall JUndefined 1000 true) 151) ∅) !! 149%nat
     = Some Limited.missingVatId
  /\ fst (Limited.serveAll asciiToUpperCase
            (repeat (sampleCall JUndefined 1000 true) 151) ∅) !! 150%nat
     = Some Limited.tooManyRequests.
Proof.
  assert (Hwin : oneWindow (map callTime (repeat (sampleCall JUndefined 1000 true) 151)))
    by (apply (bool_decide_unpack _); vm_compute; exact I).
  assert (Hcall : callOf (u "203.0.113.7") (sampleCall JUndefined 1000 true))
    by (split; [left|]; reflexivity).
  split; [reflexivity|]. split; [exact Hwin|].
  pose proof (proj1 (rate_limiter_admits_150 asciiToUpperCase (u "203.0.113.7")
                       (repeat (sampleCall JUndefined 1000 true) 151) ∅
                       eq_refl Hwin)) as H.
  split.
  - rewrite (H 149%nat _ eq_refl Hcall). vm_compute. reflexivity.
  - rewrite (H 150%nat _ eq_refl Hcall). vm_compute. reflexivity.
Defined.

(** C9. The time of an admitted GET or POST request is stored before the
    identifier is read: after the call the record of the identity is its
    times inside the window followed by the time of this request, one more
    than before, whatever the stages after the limiter answer, the three
    400s for a missing identifier, an unknown country and a bad format
    included. *)
Theorem admitted_request_consumes_quota
    (up : jsstring -> jsstring) (req : request) (e : env) (rl : Limited.store) :
  method req = GET \/ method req = POST ->
  admitted req e rl ->
  let ip := Limited.clientIP req in
  let before := List.filter (Limited.inWindow (now e)) (record rl ip) in
  let after := record (snd (Limited.handler up req e rl)) ip in
  after = before ++ [now e]
  /\ length (List.filter (Limited.inWindow (now e)) after) = S (length before)
  /\ fst (Limited.handler up req e rl) = Limited.validate up req e
  /\ (truthy (vatId req) = false ->
      Limited.validate up req e = Respond Limited.missingVatId)
  /\ (truthy (vatId req) = true ->
      checkFormat Limited.vatFormats (Limited.cleanVatId up (vatId req))
        = UnknownCountry ->
      Limited.validate up req e
        = Respond (unknownCountry (Limited.cleanVatId up (vatId req))))
  /\ (truthy (vatId req) = true ->
      checkFormat Limited.vatFormats (Limited.cleanVatId up (vatId req))
        = BadFormat ->
      Limited.validate up req e
        = Respond (badFormat (Limited.cleanVatId up (vatId req))))
  /\ status Limited.missingVatId = 400
  /\ (forall c, status (unknownCountry c) = 400 /\ status (badFormat c) = 400).
Proof.
  intros Hm Ha ip before after.
  destruct (handler_admitted up req e rl Hm Ha) as (Hfst & Hown & _).
  fold ip before in Hown.
  assert (Hafter : after = before ++ [now e])
    by (unfold after, record; fold ip; by rewrite Hown).
  split; [done|]. split.
  { rewrite Hafter, List.filter_app. unfold before at 1.
    rewrite filter_inWindow_idem. fold before. cbn [List.filter].
    replace (Limited.inWindow (now e) (now e)) with true
      by (symmetry; apply inWindow_lt; lia).
    rewrite length_app. cbn. lia. }
  split; [done|]. split.
  { intros Ht. unfold Limited.validate. by rewrite Ht. }
  split.
  { intros Ht Hf. rewrite Limited_validate_validates by done. by rewrite Hf. }
  split.
  { intros Ht Hf. rewrite Limited_validate_validates by done. by rewrite Hf. }
  by repeat split.
Qed.

Lemma admitted_request_consumes_quota_witness :
  (method (sampleRequest JUndefined) = GET \/ method (sampleRequest JUndefined) = POST)
  /\ admitted (sampleRequest JUndefined) (sampleEnv 5000000 false)
       {[ u "203.0.113.7" := [1000; 2000000] ]}
  /\ fst (Limited.handler asciiToUpperCase (sampleRequest JUndefined)
            (sampleEnv 5000000 false) {[ u "203.0.113.7" := [1000; 2000000] ]})
     = Respond Limited.missingVatId
  /\ record (snd (Limited.handler asciiToUpperCase (sampleRequest JUndefined)
                    (sampleEnv 5000000 false)
                    {[ u "203.0.113.7" := [1000; 2000000] ]}))
            (u "203.0.113.7")
     = [2000000; 5000000].
Proof.
  assert (Hm : method (sampleRequest JUndefined) = GET
               \/ method (sampleRequest JUndefined) = POST) by (left; reflexivity).
  assert (Ha : admitted (sampleRequest JUndefined) (sampleEnv 5000000 false)
                 {[ u "203.0.113.7" := [1000; 2000000] ]})
    by (vm_compute; eexists; reflexivity).
  split; [exact Hm|]. split; [exact Ha|].
  pose proof (admitted_request_consumes_quota asciiToUpperCase
                (sampleRequest JUndefined) (sampleEnv 5000000 false)
                {[ u "203.0.113.7" := [1000; 2000000] ]} Hm Ha) as H.
  cbv zeta in H. destruct H as (Hafter & _ & Hfst & Hmiss & _).
  split.
  - rewrite Hfst. apply Hmiss. reflexivity.
  - etrans; [exact Hafter|]. vm_compute. reflexivity.
Defined.

(** ** Responses *)

(** The claim of C7 read for every GET or POST request fails on the handler
    with the limiter: a request without identifier of an identity that has
    used its 150 requests is answered 429, not 400. *)
Lemma missing_identifier_rate_limited :
  method (sampleRequest JUndefined) = GET
  /\ truthy (vatId (sampleRequest JUndefined)) = false
  /\ fst (Limited.handler asciiToUpperCase (sampleRequest JUndefined)
            (sampleEnv 1000 false)
            (snd (Limited.serveAll asciiToUpperCase
                    (repeat (sampleCall JUndefined 1000 false) 150) ∅)))
     = Respond Limited.tooManyRequests
  /\ status Limited.tooManyRequests = 429
  /\ status Limited.tooManyRequests <> 400.
Proof. repeat split; try (vm_compute; reflexivity). intros E; discriminate E. Qed.

(** C7, amended. A GET or POST request without identifier (missing, empty
    or otherwise falsy) that the rate limiter admits ends with status 400 and
    a body with an error, a usage hint and formatValid false.  The earlier
    handler, which has no limiter, answers every such request with status 400,
    an error and a usage hint. *)
Theorem missing_identifier_bad_request
    (up : jsstring -> jsstring) (req : request) (e : env) :
  method req = GET \/ method req = POST ->
  truthy (vatId req) = false ->
  (forall rl : Limited.store, admitted req e rl ->
     fst (Limited.handler up req e rl) = Respond Limited.missingVatId)
  /\ status Limited.missingVatId = 400
  /\ is_Some (field "error" Limited.missingVatId)
  /\ is_Some (field "usage" Limited.missingVatId)
  /\ field "formatValid" Limited.missingVatId = Some (JBool false)
  /\ Basic.handler up req e = Respond Basic.missingVatId
  /\ status Basic.missingVatId = 400
  /\ is_Some (field "error" Basic.missingVatId)
  /\ is_Some (field "usage" Basic.missingVatId).
Proof.
  intros Hm Ht. split.
  - intros rl Ha. rewrite (proj1 (handler_admitted up req e rl Hm Ha)).
    unfold Limited.validate. by rewrite Ht.
  - repeat split; try (by eexists).
    unfold Basic.handler.
    allowed_method Hm.
    by rewrite Ht.
Qed.

Lemma missing_identifier_bad_request_witness :
  (method (sampleRequest (JStr [])) = GET \/ method (sampleRequest (JStr [])) = POST)
  /\ truthy (vatId (sampleRequest (JStr []))) = false
  /\ admitted (sampleRequest (JStr [])) (sampleEnv 1000 true) ∅
  /\ fst (Limited.handler asciiToUpperCase (sampleRequest (JStr []))
            (sampleEnv 1000 true) ∅)
     = Respond Limited.missingVatId.
Proof.
  assert (Hm : method (sampleRequest (JStr [])) = GET
               \/ method (sampleRequest (JStr [])) = POST) by (left; reflexivity).
  assert (Ha : admitted (sampleRequest (JStr [])) (sampleEnv 1000 true) ∅)
    by (vm_compute; eexists; reflexivity).
  split; [exact Hm|]. split; [reflexivity|]. split; [exact Ha|].
  exact (proj1 (missing_identifier_bad_request asciiToUpperCase
                  (sampleRequest (JStr [])) (sampleEnv 1000 true) Hm eq_refl)
               ∅ Ha).
Defined.

(** The 400 of the earlier handler for a missing identifier has no
    formatValid. *)
Lemma Basic_missingVatId_no_formatValid :
  field "formatValid" Basic.missingVatId = None.
Proof. reflexivity. Qed.

Lemma viesReply_failed c e f :
  upstreamFailed f = true -> viesReply c e f = indeterminate c e.
Proof. by destruct f as [|[] [| |? ? ? ?]]. Qed.

Lemma viesReply_status c e f : status (viesReply c e f) = 200.
Proof. by destruct f as [|[] [| |? ? ? ?]]. Qed.

(** Neither handler ever answers with a server error. *)
Lemma Limited_handler_status
    (up : jsstring -> jsstring) (req : request) (e : env) (rl : Limited.store)
    (f : fetch_result) :
  In (status (complete (fst (Limited.handler up req e rl)) f)) [200; 400; 405; 429].
Proof.
  unfold Limited.handler.
  destruct (decide (method req = OPTIONS)); [cbn; tauto|].
  destruct (decide (method req <> GET /\ method req <> POST)); [cbn; tauto|].
  destruct (Limited.rateLimit _ _ rl); [|cbn; tauto].
  cbn [fst]. destruct (validate_status up req e f) as [-> | ->]; cbn; tauto.
Qed.

Lemma Basic_handler_status
    (up : jsstring -> jsstring) (req : request) (e : env) (f : fetch_result) :
  In (status (complete (Basic.handler up req e) f)) [200; 400; 405].
Proof.
  unfold Basic.handler.
  destruct (decide (method req = OPTIONS)); [cbn; tauto|].
  destruct (decide (method req <> GET /\ method req <> POST)); [cbn; tauto|].
  destruct (truthy (vatId req)); [|cbn; tauto]. cbn [negb].
  destruct (checkFormat _ _); cbn [complete]; [cbn; tauto..|].
  rewrite viesReply_status. cbn. tauto.
Qed.

(** C2. A request that passes the format check and whose outbound call or
    body parse fails (rejected fetch, timeout, status that is not ok,
    malformed or null body) is answered with status 200, valid null,
    formatValid true, the country code, a timestamp and the message that the
    format is valid but the online check failed, by both handlers; and no
    response of either handler has a status of 500 or above. *)
Theorem upstream_failure_is_indeterminate
    (up : jsstring -> jsstring) (req : request) (e : env) (f : fetch_result) :
  method req = GET \/ method req = POST ->
  truthy (vatId req) = true ->
  upstreamFailed f = true ->
  let c := Limited.cleanVatId up (vatId req) in
  (checkFormat Limited.vatFormats c = FormatOk ->
   forall rl : Limited.store, admitted req e rl ->
     complete (fst (Limited.handler up req e rl)) f = indeterminate c e)
  /\ (checkFormat Basic.vatFormats c = FormatOk ->
      complete (Basic.handler up req e) f = indeterminate c e)
  /\ status (indeterminate c e) = 200
  /\ field "valid" (indeterminate c e) = Some JNull
  /\ field "formatValid" (indeterminate c e) = Some (JBool true)
  /\ field "countryCode" (indeterminate c e) = Some (JStr (countryCode c))
  /\ field "timestamp" (indeterminate c e) = Some (JStr (iso_timestamp e))
  /\ field "message" (indeterminate c e)
     = Some (JStr (u "Format ist g" ++ [252%N] ++ u "ltig, aber Online-Pr"
                   ++ [252%N] ++ u "fung fehlgeschlagen"))
  /\ (forall (rl : Limited.store) (req' : request) (e' : env) (f' : fetch_result),
        status (complete (fst (Limited.handler up req' e' rl)) f') < 500
        /\ status (complete (Basic.handler up req' e') f') < 500).
Proof.
  intros Hm Ht Hf c. split; [|split].
  - intros Hok rl Ha. rewrite (proj1 (handler_admitted up req e rl Hm Ha)).
    rewrite Limited_validate_validates by done. fold c. rewrite Hok.
    cbn [complete]. by apply viesReply_failed.
  - intros Hok. rewrite Basic_handler_validates by done.
    change (Basic.cleanVatId up (vatId req)) with c. rewrite Hok.
    cbn [complete]. by apply viesReply_failed.
  - repeat split; try reflexivity.
    + pose proof (Limited_handler_status up req' e' rl f') as H.
      cbn [In] in H. lia.
    + pose proof (Basic_handler_status up req' e' f') as H.
      cbn [In] in H. lia.
Qed.

Lemma upstream_failure_is_indeterminate_witness :
  (method (sampleRequest (JStr (u "de 123 456 789"))) = GET
   \/ method (sampleRequest (JStr (u "de 123 456 789"))) = POST)
  /\ truthy (vatId (sampleRequest (JStr (u "de 123 456 789")))) = true
  /\ upstreamFailed (FetchResponse false BodyMalformed) = true
  /\ checkFormat Limited.vatFormats (u "DE123456789") = FormatOk
  /\ admitted (sampleRequest (JStr (u "de 123 456 789"))) (sampleEnv 1000 true) ∅
  /\ complete (fst (Limited.handler asciiToUpperCase
                      (sampleRequest (JStr (u "de 123 456 789")))
                      (sampleEnv 1000 true) ∅))
              (FetchResponse false BodyMalformed)
     = indeterminate (u "DE123456789") (sampleEnv 1000 true).
Proof.
  assert (Hm : method (sampleRequest (JStr (u "de 123 456 789"))) = GET
               \/ method (sampleRequest (JStr (u "de 123 456 789"))) = POST)
    by (left; reflexivity).
  assert (Ha : admitted (sampleRequest (JStr (u "de 123 456 789")))
                 (sampleEnv 1000 true) ∅)
    by (vm_compute; eexists; reflexivity).
  split; [exact Hm|]. split; [reflexivity|]. split; [reflexivity|].
  split; [reflexivity|]. split; [exact Ha|].
  exact (proj1 (upstream_failure_is_indeterminate asciiToUpperCase
                  (sampleRequest (JStr (u "de 123 456 789")))
                  (sampleEnv 1000 true) (FetchResponse false BodyMalformed)
                  Hm eq_refl eq_refl)
               eq_refl ∅ Ha).
Defined.

(** * Further properties of the handlers *)

(** ** Shapes of the accepted identifiers *)

Lemma lang_lengths r pre m post :
  lang r pre m post -> In (length m) (lengths r).
Proof.
  induction 1 as [post|pre|l pre post|cl lo hi pre m post Hlen Hcl
                 |a b pre m1 m2 post _ IHa _ IHb|a b pre m post _ IH
                 |a b pre m post _ IH]; cbn [lengths length].
  - by left.
  - by left.
  - by left.
  - apply in_seq. lia.
  - apply in_flat_map. exists (length m1). split; [done|].
    apply in_map_iff. exists (length m2). split; [|done].
    by rewrite length_app.
  - apply in_app_iff. by left.
  - apply in_app_iff. by right.
Qed.

Lemma lang_ranges r pre m post :
  lang r pre m post -> Forall (fun c => in_class (ranges r) c = true) m.
Proof.
  induction 1 as [post|pre|l pre post|cl lo hi pre m post Hlen Hcl
                 |a b pre m1 m2 post _ IHa _ IHb|a b pre m post _ IH
                 |a b pre m post _ IH]; cbn [ranges].
  - constructor.
  - constructor.
  - apply Forall_forall. intros c Hc. unfold in_class.
    apply existsb_exists. exists (c, c). split.
    + apply in_map_iff. exists c. split; [done|]. by apply list_elem_of_In.
    + cbn. by rewrite N.leb_refl.
  - done.
  - apply Forall_app. split.
    + eapply Forall_impl; [exact IHa|]. intros c Hc. unfold in_class in *.
      rewrite existsb_app, Hc. done.
    + eapply Forall_impl; [exact IHb|]. intros c Hc. unfold in_class in *.
      rewrite existsb_app, Hc. by rewrite orb_true_r.
  - eapply Forall_impl; [exact IH|]. intros c Hc. unfold in_class in *.
    rewrite existsb_app, Hc. done.
  - eapply Forall_impl; [exact IH|]. intros c Hc. unfold in_class in *.
    rewrite existsb_app, Hc. by rewrite orb_true_r.
Qed.

Lemma class_subset_in a b c :
  class_subset a b = true -> in_class a c = true -> in_class b c = true.
Proof.
  unfold class_subset, in_class. rewrite forallb_forall.
  intros Hsub (ra & Hra & Hc)%existsb_exists.
  apply Hsub in Hra. apply existsb_exists in Hra as (rb & Hrb & Hin).
  apply existsb_exists. exists rb. split; [done|].
  apply andb_true_iff in Hc as [H1%N.leb_le H2%N.leb_le].
  apply andb_true_iff in Hin as [H3%N.leb_le H4%N.leb_le].
  apply andb_true_iff. split; apply N.leb_le; lia.
Qed.

(** A pattern that starts with [^] matches only at the start of the input,
    one that ends with [$] only up to its end. *)
Lemma lang_anchored_pre r l pre m post :
  anchored_lit r = Some l -> lang r pre m post -> pre = [].
Proof.
  intros Ha Hl. revert l Ha.
  induction Hl as [post|pre|l' pre post|cl lo hi pre m post Hlen Hcl
                  |a b pre m1 m2 post Hla IHa Hlb _|a b pre m post _ _
                  |a b pre m post _ _]; intros l Ha; try done.
  destruct a; try (by eapply IHa).
  by inversion Hla.
Qed.

Lemma lang_ends_eol r pre m post :
  ends_eol r = true -> lang r pre m post -> post = [].
Proof.
  intros He Hl. destruct r as [| | | |a b|]; try done.
  destruct b; try done. inversion Hl as [| | | |? ? ? ? ? ? _ Hb| |]; subst.
  by inversion Hb.
Qed.

Lemma whole_match r l s :
  anchored_lit r = Some l -> ends_eol r = true -> test r s = true ->
  lang r [] s [].
Proof.
  intros Ha He (pre & m & post & -> & Hl)%test_matches.
  pose proof (lang_anchored_pre _ _ _ _ _ Ha Hl) as ->.
  pose proof (lang_ends_eol _ _ _ _ He Hl) as ->.
  by rewrite app_nil_r.
Qed.

Lemma lookup_key_In k t r : lookup_key k t = Some r -> In (k, r) t.
Proof.
  induction t as [|[k' r'] t IH]; cbn; [done|].
  case_decide as E; [|by right; apply IH].
  intros [= <-]. left. by rewrite E.
Qed.

Lemma table_forallb (p : jsstring * regex -> bool) t k r :
  forallb p t = true -> lookup_key k t = Some r -> p (k, r) = true.
Proof.
  rewrite forallb_forall. intros H Hk. by apply H, lookup_key_In.
Qed.

Lemma vatFormats_wellShaped :
  forallb wellShaped Limited.vatFormats = true
  /\ forallb wellShaped Basic.vatFormats = true.
Proof. split; vm_compute; reflexivity. Qed.

(** What the format check of either table says of an accepted identifier. *)
Lemma accepted_entry t s :
  forallb wellShaped t = true ->
  checkFormat t s = FormatOk ->
  exists r l,
    lookup_key (countryCode s) t = Some r
    /\ wellShaped (countryCode s, r) = true
    /\ anchored_lit r = Some l
    /\ lang r [] s [].
Proof.
  intros Ht. unfold checkFormat.
  destruct (lookup_key (countryCode s) t) as [r|] eqn:Hr; [|done].
  destruct (test r s) eqn:Hs; [|done]. intros _.
  pose proof (table_forallb _ _ _ _ Ht Hr) as Hw.
  pose proof Hw as Hw'. unfold wellShaped in Hw'. cbn [fst snd] in Hw'.
  destruct (anchored_lit r) as [l|] eqn:Hl; [|done].
  apply andb_true_iff in Hw' as [Hw' _]. apply andb_true_iff in Hw' as [Hw' _].
  apply andb_true_iff in Hw' as [Hw' _]. apply andb_true_iff in Hw' as [He _].
  exists r, l. repeat split; try done. by eapply whole_match.
Qed.

Lemma gr_never_ok t s :
  lookup_key (u "GR") t = Some (Bol ⋅ L "EL" ⋅ D 9 ⋅ Eol)%re ->
  countryCode s = u "GR" -> checkFormat t s <> FormatOk.
Proof.
  intros Ht Hs. unfold checkFormat. rewrite Hs, Ht.
  by rewrite (gr_entry_rejects s Hs).
Qed.

(** X9. An identifier that passes the format check starts with one of the 28
    registry prefixes, has 4 to 14 characters, and all of them are digits,
    capital letters, [*] or [+]: no whitespace, no lower-case letter, no
    character with a meaning in a URL path. *)
Theorem accepted_identifier_shape (s : jsstring) :
  checkFormat Limited.vatFormats s = FormatOk ->
  countryCode s ∈ jurisdictions
  /\ (4 <= length s <= 14)%nat
  /\ Forall (fun c => in_class idChars c = true) s.
Proof.
  intros Hok.
  destruct (accepted_entry _ _ (proj1 vatFormats_wellShaped) Hok)
    as (r & l & Hr & Hw & Hl & Hlang).
  unfold wellShaped in Hw. cbn [fst snd] in Hw. rewrite Hl in Hw.
  apply andb_true_iff in Hw as [Hw Hcls]. apply andb_true_iff in Hw as [Hw Hlen].
  apply andb_true_iff in Hw as [_ Hkey]. apply bool_decide_eq_true in Hkey.
  split; [|split].
  - apply elem_of_cons in Hkey as [Hgr|Hin]; [|done].
    exfalso. by apply (gr_never_ok Limited.vatFormats s).
  - rewrite forallb_forall in Hlen.
    specialize (Hlen _ (lang_lengths _ _ _ _ Hlang)).
    apply andb_true_iff in Hlen as [H1%Nat.leb_le H2%Nat.leb_le]. lia.
  - eapply Forall_impl; [exact (lang_ranges _ _ _ _ Hlang)|].
    intros c Hc. by eapply class_subset_in.
Qed.

Lemma accepted_identifier_shape_witness :
  checkFormat Limited.vatFormats (u "IE1*12345W") = FormatOk
  /\ countryCode (u "IE1*12345W") ∈ jurisdictions
  /\ (4 <= length (u "IE1*12345W") <= 14)%nat.
Proof.
  split; [reflexivity|].
  pose proof (accepted_identifier_shape (u "IE1*12345W") eq_refl) as H.
  split; [exact (proj1 H)|exact (proj1 (proj2 H))].
Defined.

(** X14. The later table accepts whatever the earlier one accepts, and the earlier
    one accepts no identifier that starts with EL, XI or GR: it validates no
    Greek and no Northern-Irish identifier at all. *)
Theorem earlier_table_accepts_less (s : jsstring) :
  checkFormat Basic.vatFormats s = FormatOk ->
  checkFormat Limited.vatFormats s = FormatOk
  /\ countryCode s <> u "EL"
  /\ countryCode s <> u "XI"
  /\ countryCode s <> u "GR".
Proof.
  intros Hok.
  assert (HEL : countryCode s <> u "EL").
  { intros E. unfold checkFormat in Hok. by rewrite E in Hok. }
  assert (HXI : countryCode s <> u "XI").
  { intros E. unfold checkFormat in Hok. by rewrite E in Hok. }
  split; [|split; [done|split; [done|]]].
  - unfold checkFormat in *. by rewrite vatFormats_agree.
  - intros E. by apply (gr_never_ok Basic.vatFormats s).
Qed.

Lemma earlier_table_accepts_less_witness :
  checkFormat Basic.vatFormats (u "NL123456789B01") = FormatOk
  /\ checkFormat Limited.vatFormats (u "NL123456789B01") = FormatOk.
Proof.
  split; [reflexivity|].
  exact (proj1 (earlier_table_accepts_less (u "NL123456789B01") eq_refl)).
Defined.




(** X13. Identifiers with fewer than two characters after normalization belong to
    no country: the format check of both tables answers "unknown country". *)
Theorem short_identifier_unknown (s : jsstring) :
  (length s < 2)%nat ->
  checkFormat Limited.vatFormats s = UnknownCountry
  /\ checkFormat Basic.vatFormats s = UnknownCountry.
Proof.
  intros Hlen.
  assert (H : forall t, forallb wellShaped t = true ->
                        checkFormat t s = UnknownCountry).
  { intros t Ht. unfold checkFormat.
    destruct (lookup_key (countryCode s) t) as [r|] eqn:Hr; [exfalso|done].
    pose proof (table_forallb _ _ _ _ Ht Hr) as Hw.
    unfold wellShaped in Hw. cbn [fst snd] in Hw.
    destruct (anchored_lit r); [|done].
    apply andb_true_iff in Hw as [Hw _]. apply andb_true_iff in Hw as [Hw _].
    apply andb_true_iff in Hw as [_ Hkey]. apply bool_decide_eq_true in Hkey.
    assert (Hk : Forall (fun k : jsstring => length k = 2%nat)
                   (u "GR" :: jurisdictions))
      by (apply (bool_decide_unpack _); vm_compute; exact I).
    rewrite Forall_forall in Hk. specialize (Hk _ Hkey).
    unfold countryCode, substring_to in Hk. rewrite length_take in Hk. lia. }
  split; apply H; apply vatFormats_wellShaped.
Qed.

Lemma short_identifier_unknown_witness :
  (length (u "D") < 2)%nat
  /\ checkFormat Limited.vatFormats (u "D") = UnknownCountry.
Proof.
  assert (H : (length (u "D") < 2)%nat) by (vm_compute; lia).
  split; [exact H|]. exact (proj1 (short_identifier_unknown (u "D") H)).
Defined.

(** X15. The address of the outbound call determines the identifier: two
    different normalized identifiers never share an address. *)
Theorem viesUrl_distinct (s1 s2 : jsstring) :
  s1 <> s2 -> viesUrl s1 <> viesUrl s2.
Proof.
  unfold viesUrl, countryCode, vatNumber, substring_to, substring_from.
  intros Hne H. apply Hne. apply app_inv_head in H.
  destruct s1 as [|a1 [|b1 s1]], s2 as [|a2 [|b2 s2]]; cbn in H;
    try done; by simplify_eq.
Qed.

Lemma viesUrl_distinct_witness :
  u "DE123456789" <> u "DE12345678/9"
  /\ viesUrl (u "DE123456789") <> viesUrl (u "DE12345678/9")
  /\ viesUrl (u "DE123456789")
     = u "https://ec.europa.eu/taxation_customs/vies/rest-api/ms/DE/vat/123456789".
Proof.
  assert (H : u "DE123456789" <> u "DE12345678/9") by (intros E; discriminate E).
  split; [exact H|]. split; [|reflexivity].
  exact (viesUrl_distinct (u "DE123456789") (u "DE12345678/9") H).
Defined.

(** ** The limiter over time *)

(** The store after an admitted GET or POST request. *)
Lemma handler_store
    (up : jsstring -> jsstring) (req : request) (e : env) (rl : Limited.store) :
  method req = GET \/ method req = POST ->
  admitted req e rl ->
  snd (Limited.handler up req e rl) =
    let requests :=
      List.filter (Limited.inWindow (now e)) (record rl (Limited.clientIP req)) in
    let stored := <[Limited.clientIP req := requests ++ [now e]]> rl in
    if sweep_draw e then Limited.sweep (now e) stored else stored.
Proof.
  intros Hm Ha. pose proof Ha as [rl1 Hrl1]. unfold Limited.handler.
  allowed_method Hm. rewrite Hrl1. cbn [snd].
  rewrite rateLimit_spec in Hrl1. cbv zeta in Hrl1.
  destruct (Limited.limit <=? _)%nat; [done|]. by injection Hrl1 as <-.
Qed.

Lemma filter_inWindow_later (n T : Z) (l : list Z) :
  n <= T ->
  List.filter (Limited.inWindow T) (List.filter (Limited.inWindow n) l)
  = List.filter (Limited.inWindow T) l.
Proof.
  intros Hle. induction l as [|t l IH]; cbn; [done|].
  destruct (Limited.inWindow n t) eqn:En; cbn; [by rewrite IH|].
  destruct (Limited.inWindow T t) eqn:ET; [|done].
  apply inWindow_lt in ET. unfold Limited.inWindow in En.
  apply Z.ltb_ge in En. lia.
Qed.

Lemma filter_inWindow_shrinks (n T : Z) (l : list Z) :
  n <= T ->
  (length (List.filter (Limited.inWindow T) l)
   <= length (List.filter (Limited.inWindow n) l))%nat.
Proof.
  intros Hle. rewrite <- (filter_inWindow_later n T l Hle).
  apply List.filter_length_le.
Qed.

(** X4. OPTIONS and the methods other than GET and POST never reach the limiter:
    they are answered 200 without body and 405, whatever the store holds, and
    the store is left as it was. *)
Theorem other_methods_bypass_limiter
    (up : jsstring -> jsstring) (req : request) (e : env) (rl : Limited.store) :
  ~ (method req = GET \/ method req = POST) ->
  Limited.handler up req e rl
    = (Respond (if decide (method req = OPTIONS) then ended 200
                else methodNotAllowed), rl)
  /\ Basic.handler up req e
     = Respond (if decide (method req = OPTIONS) then ended 200
                else methodNotAllowed)
  /\ status (ended 200) = 200 /\ body (ended 200) = None
  /\ status methodNotAllowed = 405.
Proof.
  intros Hm.
  assert (Hd : method req <> OPTIONS -> method req <> GET /\ method req <> POST).
  { intros _. split; intros E; apply Hm; [by left|by right]. }
  unfold Limited.handler, Basic.handler.
  destruct (decide (method req = OPTIONS)) as [|Ho]; [done|].
  destruct (decide (method req <> GET /\ method req <> POST)) as [|Hc]; [done|].
  exfalso. by apply Hc, Hd.
Qed.

Lemma other_methods_bypass_limiter_witness :
  ~ (method {| method := u "DELETE"; x_forwarded_for := None; x_real_ip := None;
               remoteAddress := None; query_vatId := JStr (u "DE123456789");
               body_vatId := JUndefined |} = GET
     \/ method {| method := u "DELETE"; x_forwarded_for := None; x_real_ip := None;
                  remoteAddress := None; query_vatId := JStr (u "DE123456789");
                  body_vatId := JUndefined |} = POST)
  /\ Limited.handler asciiToUpperCase
       {| method := u "DELETE"; x_forwarded_for := None; x_real_ip := None;
          remoteAddress := None; query_vatId := JStr (u "DE123456789");
          body_vatId := JUndefined |}
       (sampleEnv 1000 true) {[ u "unknown" := repeat 999 150 ]}
     = (Respond methodNotAllowed, {[ u "unknown" := repeat 999 150 ]}).
Proof.
  assert (H : ~ (u "DELETE" = GET \/ u "DELETE" = POST))
    by (intros [E|E]; discriminate E).
  split; [exact H|].
  exact (proj1 (other_methods_bypass_limiter asciiToUpperCase
                  {| method := u "DELETE"; x_forwarded_for := None;
                     x_real_ip := None; remoteAddress := None;
                     query_vatId := JStr (u "DE123456789");
                     body_vatId := JUndefined |}
                  (sampleEnv 1000 true) {[ u "unknown" := repeat 999 150 ]} H)).
Defined.

(** X3. The handler answers 429 exactly when the request is a GET or POST and the
    identity has 150 or more stored times inside the window. *)
Theorem too_many_requests_iff
    (up : jsstring -> jsstring) (req : request) (e : env) (rl : Limited.store)
    (f : fetch_result) :
  status (complete (fst (Limited.handler up req e rl)) f) = 429
  <-> (method req = GET \/ method req = POST)
      /\ (150 <= length (List.filter (Limited.inWindow (now e))
                           (record rl (Limited.clientIP req))))%nat.
Proof.
  destruct (decide (method req = GET \/ method req = POST)) as [Hm|Hm].
  - destruct (decide (admitted req e rl)) as [Ha|Ha].
    + rewrite (proj1 (handler_admitted up req e rl Hm Ha)).
      apply admitted_iff in Ha. split; [|lia].
      intros E. destruct (validate_status up req e f) as [H|H];
        rewrite H in E; discriminate E.
    + rewrite (handler_rejected up req e rl Hm Ha). cbn [fst complete].
      rewrite admitted_iff in Ha. split; [|done]. intros _. split; [done|lia].
  - destruct (handler_other_method up req e rl Hm) as [_ [-> | ->]];
      (split; [intros E; discriminate E|by intros [? _]]).
Qed.

(** X2. The handler keeps every record of the store non-empty and at most 150
    times long, so the store of a process that started empty is always so. *)
Theorem records_stay_bounded
    (up : jsstring -> jsstring) (cs : list Limited.call) (rl : Limited.store) :
  recordsBounded rl ->
  recordsBounded (snd (Limited.serveAll up cs rl)).
Proof.
  revert rl. induction cs as [|c cs IH]; intros rl Hb; [done|].
  rewrite serveAll_cons. cbn [snd]. apply IH. rewrite serve_snd.
  set (req := Limited.call_req c). set (e := Limited.call_env c).
  destruct (decide (method req = GET \/ method req = POST)) as [Hm|Hm];
    [|by rewrite (proj1 (handler_other_method up req e rl Hm))].
  destruct (decide (admitted req e rl)) as [Ha|Ha];
    [|by rewrite (handler_rejected up req e rl Hm Ha)].
  rewrite (handler_store up req e rl Hm Ha). cbv zeta.
  apply admitted_iff in Ha.
  set (requests := List.filter _ _) in *.
  assert (Hstored : recordsBounded (<[Limited.clientIP req := requests ++ [now e]]> rl)).
  { intros ip times. rewrite lookup_insert. case_decide.
    - intros [= <-]. split; [by destruct requests|].
      rewrite length_app. cbn. lia.
    - apply Hb. }
  destruct (sweep_draw e); [|done].
  intros ip times. rewrite sweep_lookup.
  destruct (_ !! ip) as [old|] eqn:Hold; [|done]. cbn. unfold stillRecent.
  destruct (List.filter (Limited.inWindow (now e)) old) as [|t l] eqn:Hf; [done|].
  intros [= <-]. split; [done|]. rewrite <- Hf.
  pose proof (List.filter_length_le (Limited.inWindow (now e)) old).
  destruct (Hstored ip old Hold). lia.
Qed.

Lemma records_stay_bounded_witness :
  recordsBounded ∅
  /\ recordsBounded
       (snd (Limited.serveAll asciiToUpperCase
               (repeat (sampleCall JUndefined 1000 false) 200) ∅)).
Proof.
  assert (H : recordsBounded ∅) by (intros ip times E; discriminate E).
  split; [exact H|].
  exact (records_stay_bounded asciiToUpperCase
           (repeat (sampleCall JUndefined 1000 false) 200) ∅ H).
Defined.

(** X5. After the cleanup every stored time lies inside the window and no record
    is empty; each record left is the filtered old one, no identity is added,
    and a second cleanup at the same time changes nothing. *)
Theorem sweep_cleans (n : Z) (rl : Limited.store) :
  (forall (ip : jsstring) (times : list Z),
     Limited.sweep n rl !! ip = Some times ->
     times <> []
     /\ Forall (fun t => n - t < 3600000) times
     /\ exists old, rl !! ip = Some old
                    /\ times = List.filter (Limited.inWindow n) old)
  /\ Limited.sweep n (Limited.sweep n rl) = Limited.sweep n rl.
Proof.
  assert (Hshape : forall (ip : jsstring) (times : list Z),
     Limited.sweep n rl !! ip = Some times ->
     times <> []
     /\ Forall (fun t => n - t < 3600000) times
     /\ exists old, rl !! ip = Some old
                    /\ times = List.filter (Limited.inWindow n) old).
  { intros ip times. rewrite sweep_lookup.
    destruct (rl !! ip) as [old|]; [|done]. cbn. unfold stillRecent.
    destruct (List.filter (Limited.inWindow n) old) as [|t l] eqn:Hf; [done|].
    intros [= <-]. split; [done|]. split; [|by exists old].
    rewrite <- Hf. apply List.Forall_forall.
    intros x [_ Hx]%filter_In. by apply inWindow_lt. }
  split; [exact Hshape|].
  apply map_eq. intros ip. rewrite (sweep_lookup n (Limited.sweep n rl)).
  destruct (Limited.sweep n rl !! ip) as [times|] eqn:Hs; [|done].
  destruct (Hshape ip times Hs) as (Hne & Hall & _). cbn. unfold stillRecent.
  rewrite (filter_inWindow_all n times Hall). by destruct times.
Qed.

(** X6. A request never adds to the record of another identity: that record is
    left as it is, or, when the cleanup runs, reduced to its times inside the
    window (and removed if none is left). *)
Theorem other_identities_untouched
    (up : jsstring -> jsstring) (req : request) (e : env) (rl : Limited.store)
    (ip : jsstring) :
  ip <> Limited.clientIP req ->
  snd (Limited.handler up req e rl) !! ip = rl !! ip
  \/ (sweep_draw e = true
      /\ snd (Limited.handler up req e rl) !! ip
         = rl !! ip ≫= stillRecent (now e)).
Proof.
  intros Hne.
  destruct (decide (method req = GET \/ method req = POST)) as [Hm|Hm];
    [|left; by rewrite (proj1 (handler_other_method up req e rl Hm))].
  destruct (decide (admitted req e rl)) as [Ha|Ha];
    [|left; by rewrite (handler_rejected up req e rl Hm Ha)].
  rewrite (handler_store up req e rl Hm Ha). cbv zeta.
  destruct (sweep_draw e).
  - right. split; [done|]. by rewrite sweep_lookup, lookup_insert_ne.
  - left. by rewrite lookup_insert_ne.
Qed.

Lemma other_identities_untouched_witness :
  u "198.51.100.9" <> Limited.clientIP (sampleRequest JUndefined)
  /\ snd (Limited.handler asciiToUpperCase (sampleRequest JUndefined)
            (sampleEnv 4000000 true)
            {[ u "198.51.100.9" := [1000; 3000000] ]}) !! u "198.51.100.9"
     = Some [3000000].
Proof.
  assert (H : u "198.51.100.9" <> Limited.clientIP (sampleRequest JUndefined))
    by (intros E; discriminate E).
  split; [exact H|].
  destruct (other_identities_untouched asciiToUpperCase (sampleRequest JUndefined)
              (sampleEnv 4000000 true) {[ u "198.51.100.9" := [1000; 3000000] ]}
              (u "198.51.100.9") H) as [E|[_ E]].
  - vm_compute in E. discriminate E.
  - rewrite E. vm_compute. reflexivity.
Defined.

Lemma filter_inWindow_none (n : Z) (l : list Z) :
  Forall (fun t => 3600000 <= n - t) l ->
  List.filter (Limited.inWindow n) l = [].
Proof.
  induction 1 as [|t l Ht _ IH]; cbn; [done|].
  unfold Limited.inWindow at 1.
  destruct (Z.ltb_spec (n - t) 3600000); [lia|done].
Qed.

(** X7. Once every stored time of the identity is a full window old, its next GET
    or POST request is admitted, and its record is the time of that request
    alone. *)
Theorem admitted_again_after_window
    (up : jsstring -> jsstring) (req : request) (e : env) (rl : Limited.store) :
  method req = GET \/ method req = POST ->
  Forall (fun t => 3600000 <= now e - t) (record rl (Limited.clientIP req)) ->
  fst (Limited.handler up req e rl) = Limited.validate up req e
  /\ snd (Limited.handler up req e rl) !! Limited.clientIP req = Some [now e].
Proof.
  intros Hm Hold.
  destruct (handler_admitted up req e rl Hm (admitted_after_window req e rl Hold))
    as (Hfst & Hown & _).
  split; [done|]. by rewrite Hown, (filter_inWindow_none _ _ Hold).
Qed.

Lemma admitted_again_after_window_witness :
  (method (sampleRequest JUndefined) = GET \/ method (sampleRequest JUndefined) = POST)
  /\ Forall (fun t => 3600000 <= now (sampleEnv 3601000 false) - t)
       (record {[ u "203.0.113.7" := repeat 1000 150 ]}
               (Limited.clientIP (sampleRequest JUndefined)))
  /\ fst (Limited.handler asciiToUpperCase (sampleRequest JUndefined)
            (sampleEnv 3600999 false) {[ u "203.0.113.7" := repeat 1000 150 ]})
     = Respond Limited.tooManyRequests
  /\ snd (Limited.handler asciiToUpperCase (sampleRequest JUndefined)
            (sampleEnv 3601000 false) {[ u "203.0.113.7" := repeat 1000 150 ]})
       !! Limited.clientIP (sampleRequest JUndefined)
     = Some [3601000].
Proof.
  assert (Hm : method (sampleRequest JUndefined) = GET
               \/ method (sampleRequest JUndefined) = POST) by (left; reflexivity).
  assert (Hold : Forall (fun t => 3600000 <= now (sampleEnv 3601000 false) - t)
                   (record {[ u "203.0.113.7" := repeat 1000 150 ]}
                           (Limited.clientIP (sampleRequest JUndefined))))
    by (apply (bool_decide_unpack _); vm_compute; exact I).
  split; [exact Hm|]. split; [exact Hold|]. split; [vm_compute; reflexivity|].
  exact (proj2 (admitted_again_after_window asciiToUpperCase (sampleRequest JUndefined)
                  (sampleEnv 3601000 false) {[ u "203.0.113.7" := repeat 1000 150 ]}
                  Hm Hold)).
Defined.

Lemma record_insert (rl : Limited.store) (k ip : jsstring) (v : list Z) :
  record (<[k := v]> rl) ip = if decide (k = ip) then v else record rl ip.
Proof. unfold record. rewrite lookup_insert. by case_decide. Qed.

(** What one call does to the times of an identity that a later window
    still sees. *)
Lemma serve_record_window
    (up : jsstring -> jsstring) (ip : jsstring) (c : Limited.call)
    (rl : Limited.store) (T : Z) :
  callTime c <= T ->
  List.filter (Limited.inWindow T) (record (snd (Limited.serve up c rl)) ip)
  = List.filter (Limited.inWindow T) (record rl ip)
    ++ List.filter (Limited.inWindow T)
         (if decide (callOf ip c
                     /\ admitted (Limited.call_req c) (Limited.call_env c) rl)
          then [callTime c] else []).
Proof.
  intros HT. rewrite serve_snd. unfold callTime in *.
  set (req := Limited.call_req c) in *. set (e := Limited.call_env c) in *.
  destruct (decide (method req = GET \/ method req = POST)) as [Hm|Hm].
  2:{ rewrite (proj1 (handler_other_method up req e rl Hm)).
      rewrite decide_False; [by rewrite app_nil_r|]. by intros [[? _] _]. }
  destruct (decide (admitted req e rl)) as [Ha|Ha].
  2:{ rewrite (handler_rejected up req e rl Hm Ha). cbn [snd].
      rewrite decide_False; [by rewrite app_nil_r|]. by intros [_ ?]. }
  rewrite (handler_store up req e rl Hm Ha). cbv zeta.
  set (requests := List.filter (Limited.inWindow (now e)) _).
  assert (Hrec : List.filter (Limited.inWindow T)
                   (record (if sweep_draw e
                            then Limited.sweep (now e)
                                   (<[Limited.clientIP req := requests ++ [now e]]> rl)
                            else <[Limited.clientIP req := requests ++ [now e]]> rl) ip)
                 = List.filter (Limited.inWindow T)
                     (record (<[Limited.clientIP req := requests ++ [now e]]> rl) ip)).
  { destruct (sweep_draw e); [|done].
    by rewrite record_sweep, filter_inWindow_later. }
  rewrite Hrec, record_insert.
  destruct (decide (Limited.clientIP req = ip)) as [Hip|Hip].
  - rewrite decide_True by (by repeat split).
    rewrite List.filter_app. f_equal. unfold requests.
    by rewrite Hip, filter_inWindow_later.
  - rewrite decide_False; [by rewrite app_nil_r|]. by intros [[_ ?] _].
Qed.

Lemma window_bound_from
    (up : jsstring -> jsstring) (ip : jsstring) (cs : list Limited.call) :
  forall (rl : Limited.store) (acc : list Z) (t0 : Z),
  (forall T, t0 <= T ->
     List.filter (Limited.inWindow T) (record rl ip)
     = List.filter (Limited.inWindow T) acc) ->
  (forall T, t0 <= T ->
     (length (List.filter (Limited.inWindow T) acc) <= 150)%nat) ->
  chronological t0 (map callTime cs) ->
  forall T, t0 <= T -> Forall (fun t => t <= T) (map callTime cs) ->
  (length (List.filter (Limited.inWindow T) (acc ++ admittedTimes up ip cs rl))
   <= 150)%nat.
Proof.
  induction cs as [|c cs IH]; intros rl acc t0 Hrec Hacc Hchr T HT Hall.
  - cbn. rewrite app_nil_r. by apply Hacc.
  - cbn [admittedTimes]. cbn [map chronological] in Hchr.
    destruct Hchr as [Ht0 Hchr]. apply Forall_cons in Hall as [HcT Hall].
    rewrite (assoc_L (++)).
    apply (IH (snd (Limited.serve up c rl)) _ (callTime c)); try done.
    + intros T' HT'. rewrite (serve_record_window up ip c rl T' HT').
      rewrite List.filter_app, Hrec by lia. done.
    + intros T' HT'. rewrite List.filter_app, length_app.
      destruct (decide (callOf ip c /\ _)) as [[[_ Hip] Ha]|_].
      * apply admitted_iff in Ha. rewrite Hip in Ha.
        change (now (Limited.call_env c)) with (callTime c) in Ha.
        rewrite (Hrec (callTime c) Ht0) in Ha.
        pose proof (filter_inWindow_shrinks (callTime c) T' acc HT').
        pose proof (List.filter_length_le (Limited.inWindow T') [callTime c]).
        cbn [length] in *. lia.
      * cbn. specialize (Hacc T' ltac:(lia)). lia.
Qed.

(** X1. The guarantee of the sliding window.  When the calls are served in the
    order of the clock, from a store without times of the identity: whatever
    the other identities do and whenever the cleanup runs, at no moment [T]
    have more than 150 requests of the identity been admitted within the 3600
    seconds before [T]. *)
Theorem sliding_window_bound
    (up : jsstring -> jsstring) (ip : jsstring) (cs : list Limited.call)
    (rl : Limited.store) (t0 T : Z) :
  record rl ip = [] ->
  chronological t0 (map callTime cs) ->
  Forall (fun t => t <= T) (map callTime cs) ->
  (length (List.filter (Limited.inWindow T) (admittedTimes up ip cs rl)) <= 150)%nat.
Proof.
  intros Hrec Hchr Hall.
  destruct cs as [|c cs]; [cbn; lia|].
  assert (Ht0 : t0 <= T).
  { cbn in Hchr, Hall. apply Forall_cons in Hall as [? _]. lia. }
  apply (window_bound_from up ip (c :: cs) rl [] t0); try done.
  - intros T' _. by rewrite Hrec.
  - intros T' _. cbn. lia.
Qed.

Lemma sliding_window_bound_witness :
  record (∅ : Limited.store) (u "203.0.113.7") = []
  /\ chronological 0
       (map callTime (repeat (sampleCall JUndefined 1000 true) 160
                      ++ repeat (sampleCall JUndefined 3600999 true) 5
                      ++ repeat (sampleCall JUndefined 3601000 true) 5))
  /\ length (admittedTimes asciiToUpperCase (u "203.0.113.7")
               (repeat (sampleCall JUndefined 1000 true) 160
                ++ repeat (sampleCall JUndefined 3600999 true) 5
                ++ repeat (sampleCall JUndefined 3601000 true) 5) ∅) = 155%nat
  /\ (length (List.filter (Limited.inWindow 3601000)
               (admittedTimes asciiToUpperCase (u "203.0.113.7")
                  (repeat (sampleCall JUndefined 1000 true) 160
                   ++ repeat (sampleCall JUndefined 3600999 true) 5
                   ++ repeat (sampleCall JUndefined 3601000 true) 5) ∅)) <= 150)%nat.
Proof.
  assert (Hchr : chronological 0
       (map callTime (repeat (sampleCall JUndefined 1000 true) 160
                      ++ repeat (sampleCall JUndefined 3600999 true) 5
                      ++ repeat (sampleCall JUndefined 3601000 true) 5)))
    by (vm_compute; repeat split; discriminate).
  assert (Hall : Forall (fun t => t <= 3601000)
       (map callTime (repeat (sampleCall JUndefined 1000 true) 160
                      ++ repeat (sampleCall JUndefined 3600999 true) 5
                      ++ repeat (sampleCall JUndefined 3601000 true) 5)))
    by (apply (bool_decide_unpack _); vm_compute; exact I).
  split; [reflexivity|]. split; [exact Hchr|]. split; [vm_compute; reflexivity|].
  exact (sliding_window_bound asciiToUpperCase (u "203.0.113.7") _ ∅ 0 3601000
           eq_refl Hchr Hall).
Defined.

(** ** The client identity *)

Lemma split_head_spec (h : jsstring) :
  ~ In 44%N (Limited.split_head h)
  /\ exists rest, h = Limited.split_head h ++ rest
                  /\ (rest = [] \/ hd_error rest = Some 44%N).
Proof.
  induction h as [|c h (IHno & rest & IHeq & IHrest)]; cbn.
  - split; [tauto|]. exists []. by split; [|left].
  - destruct (N.eqb_spec c 44) as [->|Hc].
    + split; [cbn; tauto|]. exists (44%N :: h). by split; [|right].
    + split; [intros [E|E]; [by apply Hc|by apply IHno]|].
      exists rest. split; [cbn; by rewrite <- IHeq|done].
Qed.

(** X8. The identity is never empty.  It is the text of x-forwarded-for before
    the first comma, taken as it stands, whenever that text is not empty;
    an absent or empty header, or one that starts with a comma, gives way to
    x-real-ip, then to the remote address, then to "unknown". *)
Theorem clientIP_spec (req : request) :
  Limited.clientIP req <> []
  /\ (forall c h,
        x_forwarded_for req = Some (c :: h) -> c <> 44%N ->
        Limited.clientIP req = Limited.split_head (c :: h)
        /\ ~ In 44%N (Limited.clientIP req)
        /\ exists rest, c :: h = Limited.clientIP req ++ rest
                        /\ (rest = [] \/ hd_error rest = Some 44%N))
  /\ ((x_forwarded_for req = None \/ x_forwarded_for req = Some []
       \/ exists h, x_forwarded_for req = Some (44%N :: h)) ->
      Limited.clientIP req
      = Limited.str_or (x_real_ip req)
          (Limited.str_or (remoteAddress req) (u "unknown")))
  /\ (x_forwarded_for req = None -> x_real_ip req = None ->
      remoteAddress req = None -> Limited.clientIP req = u "unknown").
Proof.
  unfold Limited.clientIP. repeat split.
  - destruct (Limited.split_head <$> x_forwarded_for req) as [[|? ?]|];
      destruct (x_real_ip req) as [[|? ?]|];
      destruct (remoteAddress req) as [[|? ?]|]; done.
  - rewrite H. cbn. by destruct (N.eqb_spec c 44).
  - rewrite H. cbn [fmap option_fmap option_map].
    assert (E : Limited.split_head (c :: h) = c :: Limited.split_head h)
      by (cbn; by destruct (N.eqb_spec c 44)).
    rewrite E. cbn [Limited.str_or]. rewrite <- E. apply split_head_spec.
  - rewrite H. cbn [fmap option_fmap option_map].
    assert (E : Limited.split_head (c :: h) = c :: Limited.split_head h)
      by (cbn; by destruct (N.eqb_spec c 44)).
    rewrite E. cbn [Limited.str_or]. rewrite <- E. apply split_head_spec.
  - intros [-> | [-> | [h ->]]]; reflexivity.
  - by intros -> -> ->.
Qed.

(** ** Responses and the outbound call *)

Lemma accepted_chars t s :
  forallb wellShaped t = true ->
  checkFormat t s = FormatOk ->
  Forall (fun c => in_class idChars c = true) s.
Proof.
  intros Ht Hok.
  destruct (accepted_entry _ _ Ht Hok) as (r & l & Hr & Hw & Hl & Hlang).
  unfold wellShaped in Hw. cbn [fst snd] in Hw. rewrite Hl in Hw.
  apply andb_true_iff in Hw as [_ Hcls].
  eapply Forall_impl; [exact (lang_ranges _ _ _ _ Hlang)|].
  intros c Hc. by eapply class_subset_in.
Qed.

(** X16. The registry is called only for a GET or POST request that the limiter
    admits and whose identifier passes the format check, at the address built
    from the normalized identifier; that identifier consists of digits,
    capital letters, [*] and [+], so nothing of the request can alter the
    path of the address.  The same holds for the earlier handler. *)
Theorem registry_called_only_when_format_ok
    (up : jsstring -> jsstring) (req : request) (e : env) :
  (forall (rl : Limited.store) url k,
     fst (Limited.handler up req e rl) = CallVies url k ->
     (method req = GET \/ method req = POST)
     /\ admitted req e rl
     /\ truthy (vatId req) = true
     /\ checkFormat Limited.vatFormats (Limited.cleanVatId up (vatId req)) = FormatOk
     /\ url = viesUrl (Limited.cleanVatId up (vatId req))
     /\ k = viesReply (Limited.cleanVatId up (vatId req)) e
     /\ Forall (fun c => in_class idChars c = true)
               (Limited.cleanVatId up (vatId req)))
  /\ (forall url k,
        Basic.handler up req e = CallVies url k ->
        (method req = GET \/ method req = POST)
        /\ truthy (vatId req) = true
        /\ checkFormat Basic.vatFormats (Basic.cleanVatId up (vatId req)) = FormatOk
        /\ url = viesUrl (Basic.cleanVatId up (vatId req))
        /\ k = viesReply (Basic.cleanVatId up (vatId req)) e
        /\ Forall (fun c => in_class idChars c = true)
                  (Basic.cleanVatId up (vatId req))).
Proof.
  split.
  - intros rl url k Hcall.
    destruct (decide (method req = GET \/ method req = POST)) as [Hm|Hm];
      [|by destruct (handler_other_method up req e rl Hm) as [_ [E|E]];
           rewrite E in Hcall].
    destruct (decide (admitted req e rl)) as [Ha|Ha];
      [|by rewrite (handler_rejected up req e rl Hm Ha) in Hcall].
    rewrite (proj1 (handler_admitted up req e rl Hm Ha)) in Hcall.
    unfold Limited.validate in Hcall.
    destruct (truthy (vatId req)); [|done]. cbn [negb] in Hcall.
    destruct (checkFormat _ _) eqn:Hok; try done. injection Hcall as <- <-.
    repeat split; try done.
    by apply (accepted_chars Limited.vatFormats), Hok; apply vatFormats_wellShaped.
  - intros url k Hcall. unfold Basic.handler in Hcall.
    destruct (decide (method req = OPTIONS)); [done|].
    destruct (decide (method req <> GET /\ method req <> POST)) as [|Hm]; [done|].
    destruct (truthy (vatId req)); [|done]. cbn [negb] in Hcall.
    destruct (checkFormat _ _) eqn:Hok; try done. injection Hcall as <- <-.
    repeat split; try done.
    + destruct (decide (method req = GET)); [by left|].
      destruct (decide (method req = POST)); [by right|]. exfalso. by apply Hm.
    + by apply (accepted_chars Basic.vatFormats), Hok; apply vatFormats_wellShaped.
Qed.

(** X17. Every answer of the handler with the limiter is of one of four kinds: the
    bodiless 200 of OPTIONS; the 405, without formatValid; a 400 or 429 with
    formatValid false; or a 200 with formatValid true, the normalized
    identifier and its country code, which is sent only when the identifier
    passed the format check. *)
Theorem response_classification
    (up : jsstring -> jsstring) (req : request) (e : env) (rl : Limited.store)
    (f : fetch_result) :
  let r := complete (fst (Limited.handler up req e rl)) f in
  let c := Limited.cleanVatId up (vatId req) in
  (method req = OPTIONS /\ status r = 200 /\ body r = None)
  \/ (status r = 405 /\ field "formatValid" r = None)
  \/ ((status r = 400 \/ status r = 429)
      /\ field "formatValid" r = Some (JBool false))
  \/ (status r = 200
      /\ field "formatValid" r = Some (JBool true)
      /\ field "vatId" r = Some (JStr c)
      /\ field "countryCode" r = Some (JStr (countryCode c))
      /\ checkFormat Limited.vatFormats c = FormatOk).
Proof.
  cbv zeta. unfold Limited.handler.
  destruct (decide (method req = OPTIONS)); [by left|].
  destruct (decide (method req <> GET /\ method req <> POST));
    [by right; left|].
  destruct (Limited.rateLimit _ _ rl); [|right; right; left; by split; [right|]].
  cbn [fst]. unfold Limited.validate.
  destruct (truthy (vatId req)); [|right; right; left; by split; [left|]].
  cbn [negb]. destruct (checkFormat _ _) eqn:Hok;
    [right; right; left; by split; [left|]..|].
  right; right; right. cbn [complete].
  by destruct f as [|[] [| |? ? ? ?]].
Qed.

(** X18. When the registry answers with a status that is ok and a body that
    parses, the answer to a request that passed the format check is a 200
    that hands on [valid] as it came, [name], [address] and [requestDate] as
    they came when they are truthy, and otherwise the empty string and the
    current date. *)
Theorem confirmed_passthrough
    (up : jsstring -> jsstring) (req : request) (e : env) (rl : Limited.store)
    (valid name address requestDate : jsval) :
  method req = GET \/ method req = POST ->
  admitted req e rl ->
  truthy (vatId req) = true ->
  checkFormat Limited.vatFormats (Limited.cleanVatId up (vatId req)) = FormatOk ->
  let r := complete (fst (Limited.handler up req e rl))
             (FetchResponse true (BodyData valid name address requestDate)) in
  status r = 200
  /\ field "vatId" r = Some (JStr (Limited.cleanVatId up (vatId req)))
  /\ field "valid" r = Some valid
  /\ field "name" r = Some (if truthy name then name else JStr [])
  /\ field "address" r = Some (if truthy address then address else JStr [])
  /\ field "requestDate" r
     = Some (if truthy requestDate then requestDate else JStr (iso_requestDate e))
  /\ field "countryCode" r
     = Some (JStr (countryCode (Limited.cleanVatId up (vatId req))))
  /\ field "formatValid" r = Some (JBool true)
  /\ field "source" r = Some (JStr (u "EU VIES"))
  /\ field "timestamp" r = Some (JStr (iso_timestamp e))
  /\ field "error" r = None.
Proof.
  intros Hm Ha Ht Hok. cbv zeta.
  rewrite (proj1 (handler_admitted up req e rl Hm Ha)).
  rewrite Limited_validate_validates by done. rewrite Hok.
  by repeat split.
Qed.

Lemma confirmed_passthrough_witness :
  (method (sampleRequest (JStr (u "DE123456789"))) = GET
   \/ method (sampleRequest (JStr (u "DE123456789"))) = POST)
  /\ admitted (sampleRequest (JStr (u "DE123456789"))) (sampleEnv 1000 false) ∅
  /\ truthy (vatId (sampleRequest (JStr (u "DE123456789")))) = true
  /\ checkFormat Limited.vatFormats
       (Limited.cleanVatId asciiToUpperCase
          (vatId (sampleRequest (JStr (u "DE123456789"))))) = FormatOk
  /\ field "name"
       (complete (fst (Limited.handler asciiToUpperCase
                         (sampleRequest (JStr (u "DE123456789")))
                         (sampleEnv 1000 false) ∅))
          (FetchResponse true
             (BodyData (JBool true) (JStr (u "ACME GmbH")) JUndefined JUndefined)))
     = Some (JStr (u "ACME GmbH")).
Proof.
  assert (Hm : method (sampleRequest (JStr (u "DE123456789"))) = GET
               \/ method (sampleRequest (JStr (u "DE123456789"))) = POST)
    by (left; reflexivity).
  assert (Ha : admitted (sampleRequest (JStr (u "DE123456789")))
                 (sampleEnv 1000 false) ∅)
    by (vm_compute; eexists; reflexivity).
  split; [exact Hm|]. split; [exact Ha|]. split; [reflexivity|].
  split; [reflexivity|].
  exact (proj1 (proj2 (proj2 (proj2
           (confirmed_passthrough asciiToUpperCase
              (sampleRequest (JStr (u "DE123456789"))) (sampleEnv 1000 false) ∅
              (JBool true) (JStr (u "ACME GmbH")) JUndefined JUndefined
              Hm Ha eq_refl eq_refl))))).
Defined.


(** ** Whole-string matching *)

Lemma stripWhitespace_blank (s : jsstring) :
  Forall (fun c => isWhitespace c = true) s -> stripWhitespace s = [].
Proof.
  unfold stripWhitespace. induction 1 as [|c s Hc _ IH]; cbn; [done|].
  by rewrite Hc.
Qed.

(** X20. An identifier made of whitespace only is not treated as missing: it
    passes the check for a missing identifier, is stripped to the empty
    string, and is answered with the 400 of an unknown country, whose vatId
    is empty.  (Of the built-in only the upper-casing of the empty string is
    used.) *)
Theorem blank_identifier_is_unknown_country
    (up : jsstring -> jsstring) (req : request) (e : env) (s : jsstring) :
  up [] = [] ->
  vatId req = JStr s ->
  s <> [] ->
  Forall (fun c => isWhitespace c = true) s ->
  Limited.validate up req e = Respond (unknownCountry [])
  /\ (method req = GET \/ method req = POST ->
      Basic.handler up req e = Respond (unknownCountry []))
  /\ status (unknownCountry []) = 400
  /\ field "vatId" (unknownCountry []) = Some (JStr []).
Proof.
  intros Hup Hv Hne Hws.
  assert (Ht : truthy (vatId req) = true) by (rewrite Hv; by destruct s).
  assert (Hc : Limited.cleanVatId up (vatId req) = []).
  { unfold Limited.cleanVatId. rewrite Hv. cbn [toString].
    by rewrite (stripWhitespace_blank s Hws). }
  split; [|split; [|done]].
  - rewrite Limited_validate_validates by done. by rewrite Hc.
  - intros Hm. rewrite Basic_handler_validates by done.
    change (Basic.cleanVatId up (vatId req))
      with (Limited.cleanVatId up (vatId req)). by rewrite Hc.
Qed.

Lemma blank_identifier_is_unknown_country_witness :
  asciiToUpperCase [] = []
  /\ vatId (sampleRequest (JStr (u "  "))) = JStr (u "  ")
  /\ u "  " <> []
  /\ Forall (fun c => isWhitespace c = true) (u "  ")
  /\ Limited.validate asciiToUpperCase (sampleRequest (JStr (u "  ")))
       (sampleEnv 1000 false)
     = Respond (unknownCountry [])
  /\ Limited.validate asciiToUpperCase (sampleRequest (JStr []))
       (sampleEnv 1000 false)
     = Respond Limited.missingVatId.
Proof.
  assert (Hne : u "  " <> []) by (intros E; discriminate E).
  assert (Hws : Forall (fun c => isWhitespace c = true) (u "  "))
    by (repeat constructor).
  split; [reflexivity|]. split; [reflexivity|]. split; [exact Hne|].
  split; [exact Hws|]. split; [|reflexivity].
  exact (proj1 (blank_identifier_is_unknown_country asciiToUpperCase
                  (sampleRequest (JStr (u "  "))) (sampleEnv 1000 false) (u "  ")
                  eq_refl eq_refl Hne Hws)).
Defined.

Lemma checkFormat_whole_shape (s : jsstring) :
  checkFormat Limited.vatFormats s = FormatOk
  <-> exists r, lookup_key (countryCode s) Limited.vatFormats = Some r
                /\ lang r [] s [].
Proof.
  split.
  - intros Hok.
    destruct (accepted_entry _ _ (proj1 vatFormats_wellShaped) Hok)
      as (r & l & Hr & _ & _ & Hlang).
    by exists r.
  - intros (r & Hr & Hlang). unfold checkFormat. rewrite Hr.
    assert (Hs : test r s = true).
    { apply test_matches. exists [], s, []. by rewrite app_nil_r. }
    by rewrite Hs.
Qed.

(** X10. The format check is a match of the whole identifier: an identifier is
    accepted exactly when the table has a pattern under its first two
    characters and the identifier, from its first to its last character, has
    the shape of that pattern.  Nothing may stand before or after. *)
Theorem accepted_iff_whole_shape (s : jsstring) :
  checkFormat Limited.vatFormats s = FormatOk
  <-> exists r, lookup_key (countryCode s) Limited.vatFormats = Some r
                /\ lang r [] s [].
Proof. exact (checkFormat_whole_shape s). Qed.

Lemma lang_prefix_digits (cc : jsstring) (n : nat) (s : jsstring) :
  lang (Bol ⋅ Lit cc ⋅ D n ⋅ Eol)%re [] s []
  <-> exists ds, s = cc ++ ds /\ length ds = n
                 /\ Forall (fun c => in_class digit c = true) ds.
Proof.
  split.
  - intros H.
    inversion H as [| | | |? ? ? m1 m2 ? H1 H2| |]; subst.
    inversion H2; subst.
    inversion H1 as [| | | |? ? ? m11 m12 ? H11 H12| |]; subst.
    inversion H12 as [| | |? ? ? ? ? ? Hlen Hcl| | |]; subst.
    inversion H11 as [| | | |? ? ? ma mb ? Ha Hb| |]; subst.
    inversion Ha; subst. inversion Hb; subst.
    exists m12. cbn. rewrite app_nil_r. split; [done|]. split; [lia|done].
  - intros (ds & -> & Hlen & Hds).
    replace (cc ++ ds) with ((([] ++ cc) ++ ds) ++ []) by (by rewrite app_nil_r).
    apply lang_seq; [|constructor].
    apply lang_seq; [|constructor; [lia|done]].
    apply lang_seq; constructor.
Qed.

(** X11. For 17 prefixes the pattern is the prefix and a fixed number of digits:
    an identifier that starts with such a prefix is accepted exactly when the
    rest consists of that number of digits, not one more or less, and of
    nothing else. *)
Theorem digits_only_prefixes (cc : jsstring) (n : nat) (s : jsstring) :
  (cc, n) ∈ digitsOnly ->
  (checkFormat Limited.vatFormats s = FormatOk /\ countryCode s = cc)
  <-> exists ds, s = cc ++ ds /\ length ds = n
                 /\ Forall (fun c => (48 <=? c)%N && (c <=? 57)%N = true) ds.
Proof.
  intros Hin.
  assert (Hall : Forall (fun p : jsstring * nat =>
                   length (fst p) = 2%nat
                   /\ lookup_key (fst p) Limited.vatFormats
                      = Some (Bol ⋅ Lit (fst p) ⋅ D (snd p) ⋅ Eol)%re) digitsOnly)
    by (apply (bool_decide_unpack _); vm_compute; exact I).
  rewrite Forall_forall in Hall. destruct (Hall _ Hin) as [Hlen Hr].
  cbn [fst snd] in Hlen, Hr.
  assert (Hdig : forall ds,
            Forall (fun c => in_class digit c = true) ds
            <-> Forall (fun c => (48 <=? c)%N && (c <=? 57)%N = true) ds).
  { intros ds. apply Forall_proper; [|done]. intros c. cbn.
    by rewrite orb_false_r. }
  split.
  - intros [Hok <-]. apply checkFormat_whole_shape in Hok as (r & Hr' & Hlang).
    rewrite Hr in Hr'. injection Hr' as <-.
    apply lang_prefix_digits in Hlang as (ds & Hs & Hn & Hds).
    exists ds. by rewrite <- Hdig.
  - intros (ds & -> & Hn & Hds).
    assert (Hcc : countryCode (cc ++ ds) = cc).
    { unfold countryCode, substring_to. rewrite take_app_le by lia.
      by rewrite take_ge by lia. }
    split; [|done]. apply checkFormat_whole_shape.
    exists (Bol ⋅ Lit cc ⋅ D n ⋅ Eol)%re. rewrite Hcc. split; [done|].
    apply lang_prefix_digits. exists ds. by rewrite Hdig.
Qed.

Lemma digits_only_prefixes_witness :
  (u "DE", 9%nat) ∈ digitsOnly
  /\ checkFormat Limited.vatFormats (u "DE123456789") = FormatOk
  /\ checkFormat Limited.vatFormats (u "DE12345678") = BadFormat
  /\ checkFormat Limited.vatFormats (u "DE1234567890") = BadFormat.
Proof.
  assert (H : (u "DE", 9%nat) ∈ digitsOnly)
    by (apply (bool_decide_unpack _); vm_compute; exact I).
  split; [exact H|]. split; [|split; reflexivity].
  apply (proj2 (digits_only_prefixes (u "DE") 9 (u "DE123456789") H)).
  exists (u "123456789"). repeat split; try reflexivity. repeat constructor.
Defined.
